(** * Ipshita's Library: derived views, statistics and goal synchronisation

    A shallow embedding of the view-computation layer of the book tracker:
    - [getAverageRating] (types/book.ts),
    - the [ReadingStats] memo (components/ReadingStats.tsx),
    - the [filteredBooks] memo and [handleChangeStatus] (App.tsx),
    - [PUT /api/books/:id] (backend/src/routes/books.ts),
    - [POST /api/reading-goal/sync] (backend/src/routes/reading-goal.ts and
      backend/src/routes/goals.ts).

    JavaScript numbers are modelled by exact rationals ([Q]) and integers
    ([Z]).  The numbers the properties below depend on are sums of integer
    ratings, page counts and timestamps, and one quotient of a rating sum by
    a review count; for collections of any realistic size these stay far
    below 2^53, where IEEE double arithmetic agrees with the exact value on
    the sums, on the sign of a difference and on [Math.round] of the
    quotient.  JavaScript objects used as
    dictionaries become finite maps where their keys are fixed numbers, and
    lists of own properties in creation order, read through
    [Object.prototype], where their keys are free text; arrays become lists, and where the code mutates an array in place the
    array lives in an explicit store. *)

From Stdlib Require Import ZArith QArith Qround String Ascii Lia Lqa.
From stdpp Require Import base option list sorting gmap strings.

Open Scope Z_scope.
Open Scope list_scope.

(** ** Data model (types/book.ts) *)

Inductive ReadingStatus := want_to_read | reading | read.

#[global] Instance ReadingStatus_eq_dec : EqDecision ReadingStatus.
Proof. solve_decision. Defined.

Module Review.
Record t := mk {
  id : string;
  content : string;
  rating : Z;            (* 1-5 scale, not enforced by the type *)
  dateAdded : string;
}.
End Review.

Module Book.
Record t := mk {
  id : string;
  title : string;
  author : string;
  reviews : list Review.t;
  tags : list string;
  coverUrl : string;
  dateAdded : string;
  status : ReadingStatus;
  progress : option Z;
  totalPages : option Z;
  shelf : option string;
  isbn : option string;
  description : option string;
}.
End Book.

Module ReadingGoal.
Record t := mk {
  year : Z;
  target : Z;
  current : Z;
}.
End ReadingGoal.

#[global] Instance Review_eq_dec : EqDecision Review.t.
Proof. solve_decision. Defined.

#[global] Instance Book_eq_dec : EqDecision Book.t.
Proof. solve_decision. Defined.

#[global] Instance ReadingGoal_eq_dec : EqDecision ReadingGoal.t.
Proof. solve_decision. Defined.

(** ** JavaScript primitives used by the modelled code *)

(** Truthiness of an optional number: [undefined], [null] and [0] are falsy. *)
Definition truthy (n : option Z) : bool :=
  match n with
  | Some v => negb (v =? 0)
  | None => false
  end.

(** [n || 0] on an optional number. *)
Definition or_zero (n : option Z) : Z :=
  if truthy n then default 0 n else 0.

(** [Math.round]: the integer nearest to [x], halves going up. *)
Definition Math_round (x : Q) : Z := Qfloor (x + (1 # 2)).

(** [s.includes(q)]: [q] occurs in [s] as a contiguous substring. *)
Fixpoint includes (s q : string) : bool :=
  String.prefix q s ||
  match s with
  | EmptyString => false
  | String _ s' => includes s' q
  end.

(** [Array.prototype.sort(compareFn)].  The language specification makes the
    sort stable and, for a consistent comparator, fixes its result: the
    elements in non-decreasing order with ties kept in their original order.
    The embedding computes that result by stable insertion; an element moves
    past another only when the comparator is strictly positive. *)
Section js_sort.
Context {A : Type} (compareFn : A → A → Q).

Fixpoint sort_insert (x : A) (l : list A) : list A :=
  match l with
  | [] => [x]
  | y :: l' =>
      if Qlt_le_dec 0 (compareFn x y) then y :: sort_insert x l'
      else x :: l
  end.

Definition js_sort (l : list A) : list A := foldr sort_insert [] l.
End js_sort.

(** ** Average rating (types/book.ts, getAverageRating) *)

Definition sum_ratings (rs : list Review.t) : Z :=
  foldl (λ acc review, acc + Review.rating review) 0 rs.

Definition getAverageRating (book : Book.t) : Q :=
  match Book.reviews book with
  | [] => 0%Q
  | rs => (inject_Z (sum_ratings rs) / inject_Z (Z.of_nat (length rs)))%Q
  end.

(** ** Host services

    Functions of the JavaScript runtime whose tables (Unicode case mapping,
    locale collation, date parsing, the clock) are not part of the
    repository.  [dateAdded] strings are the ISO dates the store hands out,
    so the date functions are total integer-valued functions here. *)
Class Host := {
  toLowerCase : string → string;             (* String.prototype.toLowerCase *)
  localeCompare : string → string → Z;       (* String.prototype.localeCompare *)
  getTime : string → Z;                      (* new Date(s).getTime() *)
  getFullYear : string → Z;                  (* new Date(s).getFullYear() *)
  getMonth : string → Z;                     (* new Date(s).getMonth() *)
  currentYear : Z;                           (* new Date().getFullYear() *)
}.

(** ** Aggregate statistics (components/ReadingStats.tsx, the [stats] memo) *)

(** [b.reviews && b.reviews.length > 0] *)
Definition has_reviews (b : Book.t) : Prop := (0 < length (Book.reviews b))%nat.

#[global] Instance has_reviews_dec b : Decision (has_reviews b).
Proof. unfold has_reviews. apply _. Defined.

(** [ratedBooks.length > 0 ? ratedBooks.reduce(...) / ratedBooks.length : 0] *)
Definition avgRating (ratedBooks : list Book.t) : Q :=
  if decide (0 < length ratedBooks)%nat
  then (foldl (λ sum b, sum + getAverageRating b) 0 ratedBooks
          / inject_Z (Z.of_nat (length ratedBooks)))%Q
  else 0%Q.

(** [.reduce((sum, b) => sum + (b.totalPages || 0), 0)] *)
Definition sum_totalPages (l : list Book.t) : Z :=
  foldl (λ sum b, sum + or_zero (Book.totalPages b)) 0 l.

(** [.reduce((sum, b) => sum + (b.progress || 0), 0)] *)
Definition sum_progress (l : list Book.t) : Z :=
  foldl (λ sum b, sum + or_zero (Book.progress b)) 0 l.

(** [record[k]++] on a counter that is present. *)
Definition increment (k : Z) (record : gmap Z nat) : gmap Z nat :=
  alter S k record.

Definition booksByMonth_init : gmap Z nat :=
  foldl (λ record i, <[i := 0%nat]> record) ∅ (seqZ 0 12).

Definition booksByMonth `{Host} (readBooks : list Book.t) : gmap Z nat :=
  foldl (λ record book,
           if decide (getFullYear (Book.dateAdded book) = currentYear)
           then increment (getMonth (Book.dateAdded book)) record
           else record)
        booksByMonth_init readBooks.

(** [tagCounts] is a plain object, [{}], keyed by tag: its own properties in
    the order of their creation, with [Object.prototype] behind them.  A
    read of a key the object does not own falls through to the prototype,
    so a tag that names a member of [Object.prototype] does not start from
    [undefined].

    What a property of [tagCounts] holds: a number, or a string, namely the
    text of the value that [{}] inherits under the name [inherited],
    followed by [ones] characters ["1"]. *)
Inductive count :=
  | number_of (n : nat)
  | text_of (inherited : string) (ones : nat).

(** The functions of [Object.prototype] (ECMA-262 20.1.3 and B.2.2); its
    one other member is the accessor [__proto__]. *)
Definition Object_prototype_functions : list string :=
  ["constructor"; "hasOwnProperty"; "isPrototypeOf"; "propertyIsEnumerable";
   "toLocaleString"; "toString"; "valueOf";
   "__defineGetter__"; "__defineSetter__";
   "__lookupGetter__"; "__lookupSetter__"].

Definition inherits (key : string) : bool :=
  bool_decide (key ∈ "__proto__" :: Object_prototype_functions).

Fixpoint own_property (key : string) (o : list (string * count)) : option count :=
  match o with
  | [] => None
  | (k, c) :: rest => if decide (k = key) then Some c else own_property key rest
  end.

(** [(tagCounts[tag] || 0) + 1].  An own number [n] gives [n + 1] (also for
    0, which [||] replaces by 0).  An own string is not empty, hence truthy,
    and [+] appends ["1"].  Without an own property the read yields what the
    prototype has under that name, a function or, for [__proto__], the
    prototype itself: an object, truthy, which [+] converts to its text; and
    [undefined] for any other name, which [||] replaces by 0. *)
Definition incremented (tag : string) (o : list (string * count)) : count :=
  match own_property tag o with
  | Some (number_of n) => number_of (S n)
  | Some (text_of name ones) => text_of name (S ones)
  | None => if inherits tag then text_of tag 1 else number_of 1%nat
  end.

(** [o[key] = c] for a key other than [__proto__]: the own property is
    overwritten where it is, or created after the others. *)
Fixpoint assign (key : string) (c : count) (o : list (string * count))
  : list (string * count) :=
  match o with
  | [] => [(key, c)]
  | (k, c') :: rest =>
      if decide (k = key) then (k, c) :: rest
      else (k, c') :: assign key c rest
  end.

(** [tagCounts[tag] = (tagCounts[tag] || 0) + 1].  The assignment to
    [__proto__] reaches the setter of the prototype, which ignores a value
    that is neither an object nor [null]: nothing is stored. *)
Definition count_tag (tag : string) (o : list (string * count))
  : list (string * count) :=
  if decide (tag = "__proto__"%string) then o
  else assign tag (incremented tag o) o.

Definition tagCounts (books : list Book.t) : list (string * count) :=
  foldl (λ counts book, foldl (λ counts tag, count_tag tag counts)
                              counts (Book.tags book))
        [] books.

(** The value of a string of decimal digits. *)
Definition digit (c : ascii) : option Z :=
  let n := Z.of_N (N_of_ascii c) in
  if bool_decide (48 ≤ n ≤ 57) then Some (n - 48) else None.

Fixpoint numeral (acc : Z) (s : string) : option Z :=
  match s with
  | EmptyString => Some acc
  | String c s' => d ← digit c; numeral (10 * acc + d) s'
  end.

(** A key is an array index when it is the canonical decimal numeral (no
    leading zero) of an integer below 2^32 - 1. *)
Definition array_index (key : string) : option Z :=
  match key with
  | EmptyString => None
  | String "0"%char (String _ _) => None
  | _ => n ← numeral 0 key; if bool_decide (n < 2 ^ 32 - 1) then Some n else None
  end.

(** [Object.entries(o)]: the own properties, those whose key is an array
    index first, in ascending order of index, then the others in the order
    of their creation. *)
Definition Object_entries {A} (o : list (string * A)) : list (string * A) :=
  js_sort (λ a b, inject_Z (default 0 (array_index a.1)
                            - default 0 (array_index b.1)))
          (filter (λ e, is_Some (array_index e.1)) o)
  ++ filter (λ e, ¬ is_Some (array_index e.1)) o.

(** [b[1] - a[1]]: the difference of two numbers; with a string on either
    side, whose text is no numeral, [NaN], which the sort reads as [+0]. *)
Definition by_count (a b : string * count) : Q :=
  match b.2, a.2 with
  | number_of y, number_of x => inject_Z (Z.of_nat y - Z.of_nat x)
  | _, _ => 0
  end.

(** [Object.entries(tagCounts).sort((a, b) => b[1] - a[1])].  While every
    count is a number the comparator is consistent and the stable sort has
    one result; with a string among the counts it is not, and the order is
    left to the engine (the sort above is then one possible outcome). *)
Definition sortedTags (books : list Book.t) : list (string * count) :=
  js_sort by_count (Object_entries (tagCounts books)).

(** [.slice(0, 5)] *)
Definition topTags (books : list Book.t) : list (string * count) :=
  take 5 (sortedTags books).

Definition ratingDist_init : gmap Z nat :=
  <[5 := 0%nat]> (<[4 := 0%nat]> (<[3 := 0%nat]> (<[2 := 0%nat]> {[1 := 0%nat]}))).

Definition ratingDist (ratedBooks : list Book.t) : gmap Z nat :=
  foldl (λ dist book,
           let rating := Math_round (getAverageRating book) in
           if decide (1 ≤ rating ∧ rating ≤ 5) then increment rating dist
           else dist)
        ratingDist_init ratedBooks.

Definition totalReviews (books : list Book.t) : nat :=
  foldl (λ sum b, (sum + length (Book.reviews b))%nat) 0%nat books.

Module Stats.
Record t := mk {
  totalRead : nat;
  totalReading : nat;
  totalWantToRead : nat;
  avgRating : Q;
  totalPages : Z;
  pagesInProgress : Z;
  booksByMonth : gmap Z nat;
  topTags : list (string * count);
  ratingDist : gmap Z nat;
  totalReviews : nat;
}.
End Stats.

Definition ReadingStats `{Host} (books : list Book.t) : Stats.t :=
  let readBooks := filter (λ b, Book.status b = read) books in
  let readingBooks := filter (λ b, Book.status b = reading) books in
  let wantToRead := filter (λ b, Book.status b = want_to_read) books in
  let ratedBooks := filter has_reviews readBooks in
  {| Stats.totalRead := length readBooks;
     Stats.totalReading := length readingBooks;
     Stats.totalWantToRead := length wantToRead;
     Stats.avgRating := avgRating ratedBooks;
     Stats.totalPages :=
       sum_totalPages (filter (λ b, truthy (Book.totalPages b)) readBooks);
     Stats.pagesInProgress :=
       sum_progress (filter (λ b, truthy (Book.progress b)) readingBooks);
     Stats.booksByMonth := booksByMonth readBooks;
     Stats.topTags := topTags books;
     Stats.ratingDist := ratingDist ratedBooks;
     Stats.totalReviews := totalReviews books |}.

(** ** Filter/sort view (App.tsx, the [filteredBooks] memo) *)

Inductive SortOption := sortBy_dateAdded | sortBy_rating | sortBy_title | sortBy_author.
Inductive SortDirection := asc | desc.

(** [statusFilter : ReadingStatus | 'all'] *)
Inductive StatusFilter := status_all | status_is (s : ReadingStatus).

Module View.
Record t := mk {
  searchQuery : string;
  statusFilter : StatusFilter;
  shelfFilter : string;
  tagFilter : option string;        (* string | null *)
  sortBy : SortOption;
  sortDirection : SortDirection;
}.
End View.

(** The string a status is at run time. *)
Definition status_string (s : ReadingStatus) : string :=
  match s with
  | want_to_read => "want_to_read"
  | reading => "reading"
  | read => "read"
  end.

(** [['want_to_read', 'reading', 'read'].includes(shelfFilter)] *)
Definition builtin_shelf (shelfFilter : string) : bool :=
  bool_decide (shelfFilter ∈ ["want_to_read"; "reading"; "read"]%string).

(** Truthiness of a string: the empty string is falsy. *)
Definition nonempty (s : string) : bool :=
  match s with
  | EmptyString => false
  | _ => true
  end.

Definition matches_query `{Host} (query : string) (book : Book.t) : bool :=
  includes (toLowerCase (Book.title book)) query
  || includes (toLowerCase (Book.author book)) query
  || existsb (λ tag, includes (toLowerCase tag) query) (Book.tags book).

Definition search_filter `{Host} (searchQuery : string) (result : list Book.t)
  : list Book.t :=
  if nonempty searchQuery then
    let query := toLowerCase searchQuery in
    filter (λ book, matches_query query book) result
  else result.

Definition status_filter (statusFilter : StatusFilter) (result : list Book.t)
  : list Book.t :=
  match statusFilter with
  | status_all => result
  | status_is s => filter (λ book, Book.status book = s) result
  end.

Definition shelf_filter (shelfFilter : string) (result : list Book.t)
  : list Book.t :=
  if bool_decide (shelfFilter ≠ "all"%string) && negb (builtin_shelf shelfFilter)
  then filter (λ book, Book.shelf book = Some shelfFilter) result
  else if builtin_shelf shelfFilter
  then filter (λ book, status_string (Book.status book) = shelfFilter) result
  else result.

Definition tag_filter (tagFilter : option string) (result : list Book.t)
  : list Book.t :=
  match tagFilter with
  | Some tag =>
      if nonempty tag then filter (λ book, tag ∈ Book.tags book) result
      else result
  | None => result
  end.

Definition comparison `{Host} (sortBy : SortOption) (a b : Book.t) : Q :=
  match sortBy with
  | sortBy_dateAdded =>
      inject_Z (getTime (Book.dateAdded a) - getTime (Book.dateAdded b))
  | sortBy_rating => (getAverageRating a - getAverageRating b)%Q
  | sortBy_title => inject_Z (localeCompare (Book.title a) (Book.title b))
  | sortBy_author => inject_Z (localeCompare (Book.author a) (Book.author b))
  end.

Definition compareFn `{Host} (sortBy : SortOption) (sortDirection : SortDirection)
    (a b : Book.t) : Q :=
  match sortDirection with
  | asc => comparison sortBy a b
  | desc => (- comparison sortBy a b)%Q
  end.

(** The four filters, before the sort. *)
Definition filtered `{Host} (v : View.t) (books : list Book.t) : list Book.t :=
  tag_filter (View.tagFilter v)
    (shelf_filter (View.shelfFilter v)
      (status_filter (View.statusFilter v)
        (search_filter (View.searchQuery v) books))).

Definition filteredBooks `{Host} (v : View.t) (books : list Book.t) : list Book.t :=
  js_sort (compareFn (View.sortBy v) (View.sortDirection v)) (filtered v books).

(** ** The same two memos over a store of arrays

    [filteredBooks] copies [books] with a spread, each [filter] allocates a
    new array, and [sort] reorders the array it is called on in place.  The
    store maps array references to their contents; book objects are only
    read by both memos, so an array holds its books by value. *)

Definition ref := positive.
Abbreviation store := (gmap positive (list Book.t)).

Definition M (A : Type) : Type := store → A * store.

#[global] Instance M_ret : MRet M := λ A a σ, (a, σ).

#[global] Instance M_bind : MBind M :=
  λ A B k m σ, let '(a, σ') := m σ in k a σ'.

(** A new array. *)
Definition alloc (contents : list Book.t) : M ref :=
  λ σ, let r := fresh (dom σ) in (r, <[r := contents]> σ).

Definition get (r : ref) : M (list Book.t) :=
  λ σ, (default [] (σ !! r), σ).

Definition put (r : ref) (contents : list Book.t) : M unit :=
  λ σ, (tt, <[r := contents]> σ).

(** [[...a]] *)
Definition spread (a : ref) : M ref :=
  l ← get a; alloc l.

(** [a.filter(p)] *)
Definition array_filter (P : Book.t → Prop) `{∀ b, Decision (P b)} (a : ref)
  : M ref :=
  l ← get a; alloc (filter P l).

(** [a.sort(compareFn)]: in place, returns [a]. *)
Definition array_sort (compareFn : Book.t → Book.t → Q) (a : ref) : M ref :=
  l ← get a; _ ← put a (js_sort compareFn l); mret a.

Definition filteredBooks_memo `{Host} (v : View.t) (books : ref) : M ref :=
  result ← spread books;
  result ← (if nonempty (View.searchQuery v) then
              let query := toLowerCase (View.searchQuery v) in
              array_filter (λ book, matches_query query book) result
            else mret result);
  result ← (match View.statusFilter v with
            | status_all => mret result
            | status_is s => array_filter (λ book, Book.status book = s) result
            end);
  result ← (if bool_decide (View.shelfFilter v ≠ "all"%string)
               && negb (builtin_shelf (View.shelfFilter v))
            then array_filter (λ book, Book.shelf book = Some (View.shelfFilter v))
                              result
            else if builtin_shelf (View.shelfFilter v)
            then array_filter
                   (λ book, status_string (Book.status book) = View.shelfFilter v)
                   result
            else mret result);
  result ← (match View.tagFilter v with
            | Some tag =>
                if nonempty tag
                then array_filter (λ book, tag ∈ Book.tags book) result
                else mret result
            | None => mret result
            end);
  array_sort (compareFn (View.sortBy v) (View.sortDirection v)) result.

Definition ReadingStats_memo `{Host} (books : ref) : M Stats.t :=
  readBooks ← array_filter (λ b, Book.status b = read) books;
  readingBooks ← array_filter (λ b, Book.status b = reading) books;
  wantToRead ← array_filter (λ b, Book.status b = want_to_read) books;
  ratedBooks ← array_filter has_reviews readBooks;
  rated ← get ratedBooks;
  paged ← array_filter (λ b, truthy (Book.totalPages b)) readBooks;
  paged ← get paged;
  progressing ← array_filter (λ b, truthy (Book.progress b)) readingBooks;
  progressing ← get progressing;
  readBooks ← get readBooks;
  readingBooks ← get readingBooks;
  wantToRead ← get wantToRead;
  books ← get books;
  mret {| Stats.totalRead := length readBooks;
          Stats.totalReading := length readingBooks;
          Stats.totalWantToRead := length wantToRead;
          Stats.avgRating := avgRating rated;
          Stats.totalPages := sum_totalPages paged;
          Stats.pagesInProgress := sum_progress progressing;
          Stats.booksByMonth := booksByMonth readBooks;
          Stats.topTags := topTags books;
          Stats.ratingDist := ratingDist rated;
          Stats.totalReviews := totalReviews books |}.

(** An outcome [(r, σ)] reached from the store [σ0]: every array of [σ0] is
    as it was, and [r] is an array that [σ0] did not have, holding [l]. *)
Definition fresh_array (σ0 : store) (out : ref * store) (l : list Book.t) : Prop :=
  σ0 ⊆ snd out ∧ (fst out ∉ dom σ0) ∧ snd out !! fst out = Some l.

(** ** Status changes (App.tsx, handleChangeStatus and handleEditBook) *)

(** A key of an object literal typed [Partial<Book>]: not written, written
    with [undefined], or written with a value. *)
Inductive key (A : Type) := absent | undefined | value (a : A).
Arguments absent {A}.
Arguments undefined {A}.
Arguments value {A} a.

(** The update objects the status and progress handlers build. *)
Module Updates.
Record t := mk {
  status : option ReadingStatus;      (* always a status when written *)
  progress : key Z;
}.
End Updates.

Definition with_fields (book : Book.t) (status : ReadingStatus)
    (progress : option Z) : Book.t :=
  {| Book.id := Book.id book; Book.title := Book.title book;
     Book.author := Book.author book; Book.reviews := Book.reviews book;
     Book.tags := Book.tags book; Book.coverUrl := Book.coverUrl book;
     Book.dateAdded := Book.dateAdded book;
     Book.status := status; Book.progress := progress;
     Book.totalPages := Book.totalPages book; Book.shelf := Book.shelf book;
     Book.isbn := Book.isbn book; Book.description := Book.description book |}.

(** [books.find(b => b.id === bookId)] *)
Definition find_book (bookId : string) (books : list Book.t) : option Book.t :=
  head (filter (λ b, Book.id b = bookId) books).

(** The body of [handleChangeStatus] up to the call of [handleEditBook]. *)
Definition status_updates (books : list Book.t) (bookId : string)
    (status : ReadingStatus) : Updates.t :=
  let book := find_book bookId books in
  let updates := {| Updates.status := Some status; Updates.progress := absent |} in
  (* If marking as read, set progress to total pages *)
  let updates :=
    if bool_decide (status = read) && truthy (book ≫= Book.totalPages)
    then {| Updates.status := Updates.status updates;
            Updates.progress := value (default 0 (book ≫= Book.totalPages)) |}
    else updates in
  (* If marking as want to read, clear progress *)
  let updates :=
    if bool_decide (status = want_to_read)
    then {| Updates.status := Updates.status updates;
            Updates.progress := undefined |}
    else updates in
  updates.

(** [{ progress }] of [handleUpdateProgress]. *)
Definition progress_updates (progress : Z) : Updates.t :=
  {| Updates.status := None; Updates.progress := value progress |}.

(** *** Browser-storage build: the edit is applied in place

    [{ ...book, ...updates }]: every key written in [updates] wins, also one
    written with [undefined]. *)
Definition merge (book : Book.t) (updates : Updates.t) : Book.t :=
  with_fields book
    (default (Book.status book) (Updates.status updates))
    (match Updates.progress updates with
     | absent => Book.progress book
     | undefined => None
     | value p => Some p
     end).

Definition handleEditBook_local (bookId : string) (updates : Updates.t)
    (books : list Book.t) : list Book.t :=
  (λ book, if decide (Book.id book = bookId) then merge book updates else book)
    <$> books.

Definition handleChangeStatus_local (bookId : string) (status : ReadingStatus)
    (books : list Book.t) : list Book.t :=
  handleEditBook_local bookId (status_updates books bookId status) books.

(** *** Backend build: the edit goes through [PUT /api/books/:id] *)

(** The request body.  [JSON.stringify] leaves out every key whose value is
    [undefined]. *)
Module Body.
Record t := mk {
  status : option ReadingStatus;
  progress : option Z;
}.
End Body.

Definition JSON_stringify (updates : Updates.t) : Body.t :=
  {| Body.status := Updates.status updates;
     Body.progress := match Updates.progress updates with
                      | value p => Some p
                      | absent | undefined => None
                      end |}.

(** The database: the book rows, in the shape the routes serialise them to,
    and the reading goals keyed by their unique year. *)
Module Db.
Record t := mk {
  book : list Book.t;
  readingGoal : gmap Z ReadingGoal.t;
}.
End Db.

(** [router.put('/:id')] of routes/books.ts, on the keys above:
    [if (updates.k !== undefined) updateData.k = updates.k].
    [None] is the 404 answer. *)
Definition put_book (id : string) (updates : Body.t) (db : Db.t)
  : option Book.t * Db.t :=
  match find_book id (Db.book db) with
  | None => (None, db)
  | Some existing =>
      let row := with_fields existing
                   (default (Book.status existing) (Body.status updates))
                   (match Body.progress updates with
                    | Some p => Some p
                    | None => Book.progress existing
                    end) in
      (Some row,
       {| Db.book := (λ b, if decide (Book.id b = id) then row else b)
                       <$> Db.book db;
          Db.readingGoal := Db.readingGoal db |})
  end.

(** ** Reading goal synchronisation *)

(** [prisma.readingGoal.upsert({ where: { year }, update, create })] *)
Definition upsert (year : Z) (update : ReadingGoal.t → ReadingGoal.t)
    (create : ReadingGoal.t) (table : gmap Z ReadingGoal.t)
  : ReadingGoal.t * gmap Z ReadingGoal.t :=
  let goal := match table !! year with
              | Some existing => update existing
              | None => create
              end in
  (goal, <[year := goal]> table).

Definition set_current (current : Z) (goal : ReadingGoal.t) : ReadingGoal.t :=
  {| ReadingGoal.year := ReadingGoal.year goal;
     ReadingGoal.target := ReadingGoal.target goal;
     ReadingGoal.current := current |}.

(** [POST /api/reading-goal/sync] of routes/reading-goal.ts, the router that
    index.ts mounts: counts all books marked as read. *)
Definition sync `{Host} (db : Db.t) : ReadingGoal.t * Db.t :=
  let totalBooksRead :=
    Z.of_nat (length (filter (λ b, Book.status b = read) (Db.book db))) in
  let '(goal, table) :=
    upsert currentYear (set_current totalBooksRead)
      {| ReadingGoal.year := currentYear;
         ReadingGoal.target := 24;
         ReadingGoal.current := totalBooksRead |}
      (Db.readingGoal db) in
  (goal, {| Db.book := Db.book db; Db.readingGoal := table |}).

(** The same route in routes/goals.ts, which no entry point mounts: counts
    the read books whose [dateAdded] lies in the current year. *)
Definition goals_sync `{Host} (db : Db.t) : ReadingGoal.t * Db.t :=
  let booksReadThisYear :=
    Z.of_nat (length (filter (λ b, Book.status b = read
                                   ∧ getFullYear (Book.dateAdded b) = currentYear)
                             (Db.book db))) in
  let '(goal, table) :=
    upsert currentYear (set_current booksReadThisYear)
      {| ReadingGoal.year := currentYear;
         ReadingGoal.target := 24;
         ReadingGoal.current := booksReadThisYear |}
      (Db.readingGoal db) in
  (goal, {| Db.book := Db.book db; Db.readingGoal := table |}).

(** *** The client of the backend build *)

Module App.
Record t := mk {
  books : list Book.t;
  readingGoal : ReadingGoal.t;
}.
End App.

(** [handleEditBook]: the row the server answers replaces the book; a status
    edit is followed by a goal sync.  A failed request throws and leaves the
    state as it was. *)
Definition handleEditBook `{Host} (bookId : string) (updates : Updates.t)
    (app : App.t) (db : Db.t) : App.t * Db.t :=
  match put_book bookId (JSON_stringify updates) db with
  | (None, db) => (app, db)
  | (Some updatedBook, db) =>
      let books := (λ book, if decide (Book.id book = bookId)
                            then updatedBook else book) <$> App.books app in
      if decide (is_Some (Updates.status updates)) then
        let '(updatedGoal, db) := sync db in
        ({| App.books := books; App.readingGoal := updatedGoal |}, db)
      else
        ({| App.books := books; App.readingGoal := App.readingGoal app |}, db)
  end.

Definition handleChangeStatus `{Host} (bookId : string) (status : ReadingStatus)
    (app : App.t) (db : Db.t) : App.t * Db.t :=
  handleEditBook bookId (status_updates (App.books app) bookId status) app db.

(** ** The rating distribution as the specification words it

    Every book with at least one review, whatever its status, counted under
    its rounded average clamped into 1-5. *)

Definition clamp (rating : Z) : Z := Z.max 1 (Z.min 5 rating).

Definition ratingDistribution_spec (books : list Book.t) : gmap Z nat :=
  foldl (λ dist book, increment (clamp (Math_round (getAverageRating book))) dist)
        ratingDist_init (filter has_reviews books).

(** ** A host to evaluate on: ASCII case mapping, code-unit collation and
    ISO dates ([YYYY-MM-DD]) on a UTC clock *)

Definition lower_ascii (c : ascii) : ascii :=
  let n := N_of_ascii c in
  if ((65 <=? n) && (n <=? 90))%N then ascii_of_N (n + 32) else c.

Fixpoint lower_string (s : string) : string :=
  match s with
  | EmptyString => EmptyString
  | String c s' => String (lower_ascii c) (lower_string s')
  end.

Definition sign_of (c : Datatypes.comparison) : Z :=
  match c with
  | Lt => -1
  | Eq => 0
  | Gt => 1
  end.

Definition ordinal_compare (a b : string) : Z := sign_of (String.compare a b).

Fixpoint decimal (acc : Z) (s : string) : Z :=
  match s with
  | EmptyString => acc
  | String c s' => decimal (10 * acc + (Z.of_N (N_of_ascii c) - 48)) s'
  end.

Definition iso_year (s : string) : Z := decimal 0 (substring 0 4 s).
Definition iso_month (s : string) : Z := decimal 0 (substring 5 2 s).
Definition iso_day (s : string) : Z := decimal 0 (substring 8 2 s).

(** Days since 1970-01-01 of a civil date. *)
Definition days_from_civil (y m d : Z) : Z :=
  let y := if m <=? 2 then y - 1 else y in
  let era := y / 400 in
  let yoe := y - era * 400 in
  let doy := (153 * (if m >? 2 then m - 3 else m + 9) + 2) / 5 + d - 1 in
  let doe := yoe * 365 + yoe / 4 - yoe / 100 + doy in
  era * 146097 + doe - 719468.

Definition utc_host (thisYear : Z) : Host :=
  {| toLowerCase := lower_string;
     localeCompare := ordinal_compare;
     getTime := λ s, 86400000 * days_from_civil (iso_year s) (iso_month s) (iso_day s);
     getFullYear := iso_year;
     getMonth := λ s, iso_month s - 1;
     currentYear := thisYear |}.

(** ** Sample data *)

Definition review (rating : Z) : Review.t :=
  {| Review.id := "r"; Review.content := "text"; Review.rating := rating;
     Review.dateAdded := "2024-03-01" |}.

Definition sample (id title : string) (status : ReadingStatus)
    (ratings : list Z) (tags : list string) : Book.t :=
  {| Book.id := id; Book.title := title; Book.author := "Author";
     Book.reviews := review <$> ratings; Book.tags := tags;
     Book.coverUrl := ""; Book.dateAdded := "2024-03-01";
     Book.status := status; Book.progress := None; Book.totalPages := None;
     Book.shelf := None; Book.isbn := None; Book.description := None |}.

Definition with_pages (progress totalPages : option Z) (book : Book.t) : Book.t :=
  {| Book.id := Book.id book; Book.title := Book.title book;
     Book.author := Book.author book; Book.reviews := Book.reviews book;
     Book.tags := Book.tags book; Book.coverUrl := Book.coverUrl book;
     Book.dateAdded := Book.dateAdded book; Book.status := Book.status book;
     Book.progress := progress; Book.totalPages := totalPages;
     Book.shelf := Book.shelf book; Book.isbn := Book.isbn book;
     Book.description := Book.description book |}.

Definition view (sortBy : SortOption) (sortDirection : SortDirection) : View.t :=
  {| View.searchQuery := ""; View.statusFilter := status_all;
     View.shelfFilter := "all"; View.tagFilter := None;
     View.sortBy := sortBy; View.sortDirection := sortDirection |}.

(** The same view with the other direction. *)
Definition directed (sortDirection : SortDirection) (v : View.t) : View.t :=
  {| View.searchQuery := View.searchQuery v;
     View.statusFilter := View.statusFilter v;
     View.shelfFilter := View.shelfFilter v;
     View.tagFilter := View.tagFilter v;
     View.sortBy := View.sortBy v; View.sortDirection := sortDirection |}.

(** Three books: two read, rated 4 and 3 on average, one unread; and a read
    book rated 5. *)
Definition emma : Book.t := sample "b1" "Emma" read [5; 3; 4] ["classic"; "romance"].
Definition dune : Book.t := sample "b2" "Dune" read [3] ["scifi"; "classic"].
Definition ulysses : Book.t := sample "b3" "Ulysses" want_to_read [] ["classic"].
Definition beloved : Book.t := sample "b8" "Beloved" read [5] ["classic"].

(** Two books with a tag that names a member of [Object.prototype]. *)
Definition pillars : Book.t :=
  sample "b9" "The Pillars of the Earth" read [4] ["constructor"; "classic"].
Definition frankenstein : Book.t :=
  sample "b10" "Frankenstein" read [] ["__proto__"; "classic"].

(** A book being read that already has a review, and a read book whose only
    review carries no rating (stored as 0). *)
Definition persuasion : Book.t := sample "b4" "Persuasion" reading [4] [].
Definition walden : Book.t := sample "b5" "Walden" read [0] [].

(** A book being read, 120 pages into 300, in the client and in the
    database, with no goal stored yet. *)
Definition middlemarch : Book.t :=
  with_pages (Some 120) (Some 300) (sample "b6" "Middlemarch" reading [] []).

Definition goal_2024 : ReadingGoal.t :=
  {| ReadingGoal.year := 2024; ReadingGoal.target := 24; ReadingGoal.current := 0 |}.

Definition app0 : App.t :=
  {| App.books := [middlemarch; ulysses]; App.readingGoal := goal_2024 |}.

Definition db0 : Db.t :=
  {| Db.book := [middlemarch; ulysses]; Db.readingGoal := ∅ |}.

(** A book read and added the year before. *)
Definition hamlet : Book.t :=
  {| Book.id := "b7"; Book.title := "Hamlet"; Book.author := "Shakespeare";
     Book.reviews := []; Book.tags := []; Book.coverUrl := "";
     Book.dateAdded := "2023-11-20"; Book.status := read;
     Book.progress := None; Book.totalPages := None; Book.shelf := None;
     Book.isbn := None; Book.description := None |}.

(** ** Consistency of a collation

    ECMA-262 requires [localeCompare] to be a consistent comparator: opposite
    signs when the arguments are swapped, and a transitive "not after". *)
Definition consistent_collation (compare : string → string → Z) : Prop :=
  (∀ a b, Z.sgn (compare a b) = - Z.sgn (compare b a))
  ∧ (∀ a b c, compare a b ≤ 0 → compare b c ≤ 0 → compare a c ≤ 0).

(** No two different books of [l] tie under the sort key. *)
Definition tie_free `{Host} (sortBy : SortOption) (l : list Book.t) : Prop :=
  ∀ a b, a ∈ l → b ∈ l → (comparison sortBy a b == 0)%Q → a = b.

(** ** Further definitions: decidable ties *)

#[global] Instance Qeq_decision (x y : Q) : Decision (x == y)%Q := Qeq_dec x y.

(** ** Further definitions: what a tag dictionary records

    What [tagCounts] holds for a tag written [n] times: the number [n],
    or, for a tag that names a function of [Object.prototype], the text of
    that function followed by [n] characters ["1"]. *)
Definition recorded (tag : string) (n : nat) : count :=
  if bool_decide (tag ∈ Object_prototype_functions) then text_of tag n else number_of n.

(** [tally counts f]: the object has one property per key; it has none for
    [__proto__] and none for a tag with [f tag = 0], and [recorded] of
    [f tag] for any other tag. *)
Definition tally (counts : list (string * count)) (f : string → nat) : Prop :=
  NoDup counts.*1
  ∧ ∀ tag, own_property tag counts
           = if decide (f tag = 0%nat ∨ tag = "__proto__"%string) then None
             else Some (recorded tag (f tag)).

(** The numeric part of a count: a string adds nothing to a sum of counts. *)
Definition numeric (c : count) : nat :=
  match c with number_of n => n | text_of _ _ => 0%nat end.

(** Order on counts that are numbers. *)
Definition count_le (a b : count) : Prop :=
  match a, b with
  | number_of x, number_of y => (x ≤ y)%nat
  | _, _ => False
  end.

(** No tag of the books names a function of [Object.prototype]. *)
Definition plain_tags (books : list Book.t) : Prop :=
  Forall (λ b, Forall (λ tag, tag ∉ Object_prototype_functions) (Book.tags b)) books.

(** The number of times [tag] is written on the books. *)
Definition occurrences (tag : string) (books : list Book.t) : nat :=
  sum_list ((λ b, length (filter (tag =.) (Book.tags b))) <$> books).

(** ** The statistics of the profile header (App.tsx, the [stats] memo) *)

Module ProfileStats.
Record t := mk {
  read : nat;
  reading : nat;
  wantToRead : nat;
  avgRating : Q;
  totalPages : Z;
}.
End ProfileStats.

Definition stats (books : list Book.t) : ProfileStats.t :=
  let readBooks := filter (λ b, Book.status b = read ∧ has_reviews b) books in
  {| ProfileStats.read := length (filter (λ b, Book.status b = read) books);
     ProfileStats.reading := length (filter (λ b, Book.status b = reading) books);
     ProfileStats.wantToRead :=
       length (filter (λ b, Book.status b = want_to_read) books);
     ProfileStats.avgRating := avgRating readBooks;
     ProfileStats.totalPages :=
       sum_totalPages
         (filter (λ b, Book.status b = read ∧ truthy (Book.totalPages b)) books) |}.

(** ** Latest review (types/book.ts, getLatestReview) *)

(** The callback of the [reduce]: a review replaces the latest one only when
    its date is strictly later. *)
Definition later_review `{Host} (latest review : Review.t) : Review.t :=
  if decide (getTime (Review.dateAdded latest) < getTime (Review.dateAdded review))
  then review else latest.

Definition getLatestReview `{Host} (book : Book.t) : option Review.t :=
  match Book.reviews book with
  | [] => None
  | first :: rest => Some (foldl later_review first rest)
  end.

(** ** Stored books and their migration (types/book.ts, migrateBook)

    What browser storage may hold for a book: the current format has a
    [reviews] array, the old one a [review] text and a [rating].  (A record
    with a [reviews] array but no [tags] is written by no version of the
    application; its tags, left [undefined] by the source, show as empty.) *)
Module Stored.
Record t := mk {
  id : string;
  title : string;
  author : string;
  reviews : option (list Review.t);
  review : option string;
  rating : option Z;
  tags : option (list string);
  coverUrl : string;
  dateAdded : option string;
  status : option ReadingStatus;
  progress : option Z;
  totalPages : option Z;
  shelf : option string;
  isbn : option string;
  description : option string;
}.
End Stored.

Section migration.
(** [String.prototype.trim], and the ISO date of today,
    [new Date().toISOString().split('T')[0]]. *)
Variable trim : string → string.
Variable today : string.

(** [book.dateAdded || today] *)
Definition or_today (dateAdded : option string) : string :=
  match dateAdded with
  | Some d => if nonempty d then d else today
  | None => today
  end.

Definition migrateBook (book : Stored.t) : Book.t :=
  match Stored.reviews book with
  | Some reviews =>
      (* already has a reviews array: make sure status and date exist *)
      {| Book.id := Stored.id book; Book.title := Stored.title book;
         Book.author := Stored.author book; Book.reviews := reviews;
         Book.tags := default [] (Stored.tags book);
         Book.coverUrl := Stored.coverUrl book;
         Book.dateAdded := or_today (Stored.dateAdded book);
         Book.status := default read (Stored.status book);
         Book.progress := Stored.progress book;
         Book.totalPages := Stored.totalPages book;
         Book.shelf := Stored.shelf book; Book.isbn := Stored.isbn book;
         Book.description := Stored.description book |}
  | None =>
      let reviews :=
        match Stored.review book with
        | Some text =>
            if nonempty text && nonempty (trim text)
            then [ {| Review.id := "migrated-" +:+ Stored.id book;
                      Review.content := text;
                      Review.rating := default 0 (Stored.rating book);
                      Review.dateAdded := or_today (Stored.dateAdded book) |} ]
            else []
        | None => []
        end in
      {| Book.id := Stored.id book; Book.title := Stored.title book;
         Book.author := Stored.author book; Book.reviews := reviews;
         Book.tags := default [] (Stored.tags book);
         Book.coverUrl := Stored.coverUrl book;
         Book.dateAdded := or_today (Stored.dateAdded book);
         Book.status := default read (Stored.status book);
         Book.progress := Stored.progress book;
         Book.totalPages := Stored.totalPages book;
         Book.shelf := Stored.shelf book; Book.isbn := Stored.isbn book;
         Book.description := Stored.description book |}
  end.

(** The initial [books] state of the browser-storage build: the stored books,
    migrated, followed by the initial books whose id is not among them; the
    initial books when nothing usable is stored. *)
Definition load_books (saved : option (list Stored.t)) (initialBooks : list Book.t)
  : list Book.t :=
  match saved with
  | Some parsed =>
      let migratedBooks := migrateBook <$> parsed in
      let savedIds := Book.id <$> migratedBooks in
      let missingInitial := filter (λ b, Book.id b ∉ savedIds) initialBooks in
      migratedBooks ++ missingInitial
  | None => initialBooks
  end.
End migration.

(** A book as [JSON.stringify] and [JSON.parse] hand it back: every field
    present. *)
Definition stored_of (book : Book.t) : Stored.t :=
  {| Stored.id := Book.id book; Stored.title := Book.title book;
     Stored.author := Book.author book; Stored.reviews := Some (Book.reviews book);
     Stored.review := None; Stored.rating := None;
     Stored.tags := Some (Book.tags book); Stored.coverUrl := Book.coverUrl book;
     Stored.dateAdded := Some (Book.dateAdded book);
     Stored.status := Some (Book.status book);
     Stored.progress := Book.progress book;
     Stored.totalPages := Book.totalPages book; Stored.shelf := Book.shelf book;
     Stored.isbn := Book.isbn book; Stored.description := Book.description book |}.

(** ** All tags (App.tsx, the [allTags] memo) *)

(** [tags.add(tag)] on a [Set], which keeps insertion order. *)
Definition set_add (tags : list string) (tag : string) : list string :=
  if decide (tag ∈ tags) then tags else tags ++ [tag].

(** [Array.from(tags).sort()]: the default order compares code units. *)
Definition allTags (books : list Book.t) : list string :=
  js_sort (λ a b, inject_Z (ordinal_compare a b))
          (foldl (λ tags book, foldl set_add tags (Book.tags book)) [] books).

(** ** The handlers of the browser-storage build (App.tsx, second build) *)

Module Shelf.
Record t := mk {
  id : string;
  name : string;
  createdAt : string;
}.
End Shelf.

(** [ReviewFormData] and [Partial<ReviewFormData>] *)
Module ReviewForm.
Record t := mk {
  content : string;
  rating : Z;
}.
End ReviewForm.

Module ReviewUpdates.
Record t := mk {
  content : option string;
  rating : option Z;
}.
End ReviewUpdates.

Definition with_reviews (book : Book.t) (reviews : list Review.t) : Book.t :=
  {| Book.id := Book.id book; Book.title := Book.title book;
     Book.author := Book.author book; Book.reviews := reviews;
     Book.tags := Book.tags book; Book.coverUrl := Book.coverUrl book;
     Book.dateAdded := Book.dateAdded book; Book.status := Book.status book;
     Book.progress := Book.progress book; Book.totalPages := Book.totalPages book;
     Book.shelf := Book.shelf book; Book.isbn := Book.isbn book;
     Book.description := Book.description book |}.

Definition with_shelf (book : Book.t) (shelf : option string) : Book.t :=
  {| Book.id := Book.id book; Book.title := Book.title book;
     Book.author := Book.author book; Book.reviews := Book.reviews book;
     Book.tags := Book.tags book; Book.coverUrl := Book.coverUrl book;
     Book.dateAdded := Book.dateAdded book; Book.status := Book.status book;
     Book.progress := Book.progress book; Book.totalPages := Book.totalPages book;
     Book.shelf := shelf; Book.isbn := Book.isbn book;
     Book.description := Book.description book |}.

Definition handleDeleteBook_local (bookId : string) (books : list Book.t)
  : list Book.t :=
  filter (λ book, Book.id book ≠ bookId) books.

(** [newReview] carries the id [review-<Date.now()>] and today's date. *)
Definition handleAddReview_local (bookId reviewId today : string)
    (reviewData : ReviewForm.t) (books : list Book.t) : list Book.t :=
  let newReview :=
    {| Review.id := reviewId; Review.content := ReviewForm.content reviewData;
       Review.rating := ReviewForm.rating reviewData;
       Review.dateAdded := today |} in
  (λ book, if decide (Book.id book = bookId)
           then with_reviews book (Book.reviews book ++ [newReview])
           else book) <$> books.

(** [{ ...review, ...updates }] *)
Definition merge_review (review : Review.t) (updates : ReviewUpdates.t) : Review.t :=
  {| Review.id := Review.id review;
     Review.content := default (Review.content review) (ReviewUpdates.content updates);
     Review.rating := default (Review.rating review) (ReviewUpdates.rating updates);
     Review.dateAdded := Review.dateAdded review |}.

Definition handleEditReview_local (bookId reviewId : string)
    (updates : ReviewUpdates.t) (books : list Book.t) : list Book.t :=
  (λ book, if decide (Book.id book ≠ bookId) then book
           else with_reviews book
                  ((λ review, if decide (Review.id review = reviewId)
                              then merge_review review updates else review)
                     <$> Book.reviews book)) <$> books.

Definition handleDeleteReview_local (bookId reviewId : string)
    (books : list Book.t) : list Book.t :=
  (λ book, if decide (Book.id book ≠ bookId) then book
           else with_reviews book
                  (filter (λ review, Review.id review ≠ reviewId)
                          (Book.reviews book))) <$> books.

(** [handleDeleteShelf]: the shelf goes, its books stay without a shelf. *)
Definition handleDeleteShelf_local (shelfId : string)
    (customShelves : list Shelf.t) (books : list Book.t)
  : list Shelf.t * list Book.t :=
  (filter (λ s, Shelf.id s ≠ shelfId) customShelves,
   (λ book, if decide (Book.shelf book = Some shelfId)
            then with_shelf book None else book) <$> books).

(** ** More sample data *)

(** [trim] on ASCII white space. *)
Fixpoint trim_start (s : string) : string :=
  match s with
  | String c s' => if Ascii.is_space c then trim_start s' else s
  | EmptyString => s
  end.

Definition trim_ascii (s : string) : string :=
  String.rev (trim_start (String.rev (trim_start s))).

(** A book stored in the old format, with a review text and a rating, and
    one whose review text is blank. *)
Definition old_walden : Stored.t :=
  {| Stored.id := "b5"; Stored.title := "Walden"; Stored.author := "Thoreau";
     Stored.reviews := None; Stored.review := Some " Quiet and slow. ";
     Stored.rating := Some 4; Stored.tags := None; Stored.coverUrl := "";
     Stored.dateAdded := Some "2021-05-02"; Stored.status := None;
     Stored.progress := None; Stored.totalPages := None; Stored.shelf := None;
     Stored.isbn := None; Stored.description := None |}.

Definition old_blank : Stored.t :=
  {| Stored.id := "b9"; Stored.title := "Ivanhoe"; Stored.author := "Scott";
     Stored.reviews := None; Stored.review := Some "   ";
     Stored.rating := None; Stored.tags := Some ["classic"%string];
     Stored.coverUrl := ""; Stored.dateAdded := None; Stored.status := None;
     Stored.progress := None; Stored.totalPages := None; Stored.shelf := None;
     Stored.isbn := None; Stored.description := None |}.

(** ** More routes of the backend *)

(** The read books whose [dateAdded] lies in the current year, the count of
    [GET] and [PUT /api/reading-goal]. *)
Definition booksReadThisYear `{Host} (db : Db.t) : Z :=
  Z.of_nat (length (filter (λ b, Book.status b = read
                                 ∧ getFullYear (Book.dateAdded b) = currentYear)
                           (Db.book db))).

(** [GET /api/reading-goal] (routes/reading-goal.ts): the stored goal of the
    current year, created with target 24 when there is none. *)
Definition get_goal `{Host} (db : Db.t) : ReadingGoal.t * Db.t :=
  match Db.readingGoal db !! currentYear with
  | Some goal => (goal, db)
  | None =>
      let goal := {| ReadingGoal.year := currentYear;
                     ReadingGoal.target := 24;
                     ReadingGoal.current := booksReadThisYear db |} in
      (goal, {| Db.book := Db.book db;
                Db.readingGoal := <[currentYear := goal]> (Db.readingGoal db) |})
  end.

(** [PUT /api/reading-goal] (routes/reading-goal.ts).  The body's [target]
    is [None] when it is missing or not a number; [None] as answer is the
    400 response. *)
Definition put_goal `{Host} (target : option Z) (db : Db.t)
  : option ReadingGoal.t * Db.t :=
  match target with
  | None => (None, db)
  | Some target =>
      if decide (target < 0) then (None, db)
      else
        let '(goal, table) :=
          upsert currentYear
            (λ goal, {| ReadingGoal.year := ReadingGoal.year goal;
                        ReadingGoal.target := target;
                        ReadingGoal.current := booksReadThisYear db |})
            {| ReadingGoal.year := currentYear;
               ReadingGoal.target := target;
               ReadingGoal.current := booksReadThisYear db |}
            (Db.readingGoal db) in
        (Some goal, {| Db.book := Db.book db; Db.readingGoal := table |})
  end.

(** [DELETE /api/books/:id] (routes/books.ts): [false] is the 404 answer. *)
Definition delete_book (id : string) (db : Db.t) : bool * Db.t :=
  match find_book id (Db.book db) with
  | None => (false, db)
  | Some _ =>
      (true, {| Db.book := filter (λ b, Book.id b ≠ id) (Db.book db);
                Db.readingGoal := Db.readingGoal db |})
  end.

(** [handleDeleteBook] of the backend build: the book leaves the client
    state once the server has deleted it, and the goal is synchronised. *)
Definition handleDeleteBook `{Host} (bookId : string) (app : App.t) (db : Db.t)
  : App.t * Db.t :=
  match delete_book bookId db with
  | (false, db) => (app, db)
  | (true, db) =>
      let books := filter (λ book, Book.id book ≠ bookId) (App.books app) in
      let '(updatedGoal, db) := sync db in
      ({| App.books := books; App.readingGoal := updatedGoal |}, db)
  end.

(** [handleUpdateProgress] of the backend build. *)
Definition handleUpdateProgress `{Host} (bookId : string) (progress : Z)
    (app : App.t) (db : Db.t) : App.t * Db.t :=
  handleEditBook bookId (progress_updates progress) app db.

(** ** The books sent for recommendations (the recommendations client,
    getRecommendations) *)

Module BookInput.
Record t := mk {
  title : string;
  author : string;
  rating : Q;
  tags : list string;
  review : option string;
}.
End BookInput.

Definition book_input (b : Book.t) : BookInput.t :=
  {| BookInput.title := Book.title b; BookInput.author := Book.author b;
     BookInput.rating := getAverageRating b; BookInput.tags := Book.tags b;
     BookInput.review := Review.content <$> last (Book.reviews b) |}.

Definition booksToSend (books : list Book.t) : list BookInput.t :=
  let readBooksWithReviews :=
    book_input <$> filter (λ b, Book.status b = read ∧ has_reviews b) books in
  if decide (3 ≤ length readBooksWithReviews)%nat then readBooksWithReviews
  else book_input <$> books.

(** Two custom shelves and a book on the first. *)
Definition favourites : Shelf.t :=
  {| Shelf.id := "shelf-1"; Shelf.name := "Favourites"; Shelf.createdAt := "2024-02-01" |}.
Definition travel : Shelf.t :=
  {| Shelf.id := "shelf-2"; Shelf.name := "Travel"; Shelf.createdAt := "2024-02-02" |}.
Definition shelved : Book.t := with_shelf dune (Some "shelf-1"%string).

(** * Properties *)

(** ** Arithmetic of averages and rounding *)

Lemma foldl_sum_ratings (rs : list Review.t) (acc : Z) :
  foldl (λ acc review, acc + Review.rating review) acc rs = acc + sum_ratings rs.
Proof.
  unfold sum_ratings. revert acc.
  induction rs as [|r rs IH]; intros acc; simpl; [lia|].
  rewrite IH, (IH (0 + _)). lia.
Qed.

Lemma sum_ratings_cons r rs : sum_ratings (r :: rs) = Review.rating r + sum_ratings rs.
Proof. unfold sum_ratings at 1. simpl. rewrite foldl_sum_ratings. lia. Qed.

Lemma sum_ratings_bounds (lo hi : Z) (rs : list Review.t) :
  (∀ r, r ∈ rs → lo ≤ Review.rating r ≤ hi) →
  lo * Z.of_nat (length rs) ≤ sum_ratings rs ≤ hi * Z.of_nat (length rs).
Proof.
  induction rs as [|r rs IH]; intros Hall.
  - unfold sum_ratings. simpl. lia.
  - rewrite sum_ratings_cons.
    assert (lo ≤ Review.rating r ≤ hi) by (apply Hall; left).
    assert (lo * Z.of_nat (length rs) ≤ sum_ratings rs ≤ hi * Z.of_nat (length rs))
      by (apply IH; intros; apply Hall; by right).
    cbn [length]. lia.
Qed.

Lemma getAverageRating_unfold (book : Book.t) :
  Book.reviews book ≠ [] →
  getAverageRating book
  = (inject_Z (sum_ratings (Book.reviews book))
       / inject_Z (Z.of_nat (length (Book.reviews book))))%Q.
Proof. unfold getAverageRating. by destruct (Book.reviews book). Qed.

Lemma Q_of_length_pos {A} (l : list A) :
  l ≠ [] → (0 < inject_Z (Z.of_nat (length l)))%Q.
Proof.
  intros Hne. change 0%Q with (inject_Z 0). rewrite <- Zlt_Qlt.
  destruct l; [done|]. cbn [length]. lia.
Qed.

(** The average lies between any two bounds of the ratings. *)
Lemma getAverageRating_between (lo hi : Z) (book : Book.t) :
  Book.reviews book ≠ [] →
  (∀ r, r ∈ Book.reviews book → lo ≤ Review.rating r ≤ hi) →
  (inject_Z lo <= getAverageRating book <= inject_Z hi)%Q.
Proof.
  intros Hne Hall. rewrite getAverageRating_unfold by done.
  pose proof (sum_ratings_bounds lo hi _ Hall) as [Hlo Hhi].
  pose proof (Q_of_length_pos _ Hne) as Hpos.
  set (n := inject_Z (Z.of_nat (length (Book.reviews book)))) in *.
  split.
  - apply Qle_shift_div_l; [done|]. unfold n.
    rewrite <- inject_Z_mult, <- Zle_Qle. lia.
  - apply Qle_shift_div_r; [done|]. unfold n.
    rewrite <- inject_Z_mult, <- Zle_Qle. lia.
Qed.

Lemma Math_round_between (lo hi : Z) (x : Q) :
  (inject_Z lo <= x <= inject_Z hi)%Q → lo ≤ Math_round x ≤ hi.
Proof.
  intros [Hlo Hhi]. unfold Math_round. split.
  - rewrite <- (Qfloor_Z lo). apply Qfloor_resp_le. lra.
  - pose proof (Qfloor_le (x + (1 # 2))) as Hfl.
    assert (Qfloor (x + (1 # 2)) < hi + 1) as Hlt; [|lia].
    rewrite Zlt_Qlt, inject_Z_plus. change (inject_Z 1) with 1%Q. lra.
Qed.

(** [Math.round] returns the integer [k] exactly on [k - 1/2 <= x < k + 1/2]. *)
Lemma Math_round_spec (x : Q) (k : Z) :
  Math_round x = k ↔ (inject_Z k - (1 # 2) <= x < inject_Z k + (1 # 2))%Q.
Proof.
  unfold Math_round.
  pose proof (Qfloor_le (x + (1 # 2))) as Hle.
  pose proof (Qlt_floor (x + (1 # 2))) as Hlt.
  rewrite inject_Z_plus in Hlt. change (inject_Z 1) with 1%Q in Hlt.
  split.
  - intros <-. lra.
  - intros [H1 H2].
    assert (Qfloor (x + (1 # 2)) < k + 1 ∧ k < Qfloor (x + (1 # 2)) + 1) as [??];
      [|lia].
    rewrite !Zlt_Qlt, !inject_Z_plus. change (inject_Z 1) with 1%Q. lra.
Qed.

(** ** Average rating *)



(** ** Statistics *)

(** C10.  The three status counts of the statistics add up to the number of
    books: each book has exactly one of the three statuses. *)
Theorem status_counts_partition `{Host} (books : list Book.t) :
  (Stats.totalRead (ReadingStats books)
   + Stats.totalReading (ReadingStats books)
   + Stats.totalWantToRead (ReadingStats books))%nat
  = length books.
Proof.
  cbn [ReadingStats Stats.totalRead Stats.totalReading Stats.totalWantToRead].
  induction books as [|b books IH]; [done|].
  rewrite !filter_cons.
  destruct (Book.status b);
    repeat case_decide; try done; cbn [length] in *; lia.
Qed.

(** *** The tag object *)

Lemma assign_keys (t : string) (c : count) (o : list (string * count)) :
  (assign t c o).*1 = if decide (t ∈ o.*1) then o.*1 else o.*1 ++ [t].
Proof.
  induction o as [|[k c'] o IH]; [done|].
  cbn [assign]. rewrite !fmap_cons. cbn [fst].
  destruct (decide (k = t)) as [->|Hne].
  - rewrite fmap_cons, decide_True by left. done.
  - rewrite fmap_cons, IH. cbn [fst].
    destruct (decide (t ∈ o.*1)) as [Hin|Hnin].
    + by rewrite decide_True by (by right).
    + rewrite decide_False; [done|]. intros [?|?]%elem_of_cons; congruence.
Qed.

Lemma own_property_assign (key t : string) (c : count) (o : list (string * count)) :
  own_property key (assign t c o)
  = if decide (key = t) then Some c else own_property key o.
Proof.
  induction o as [|[k c'] o IH]; cbn [assign own_property].
  - destruct (decide (t = key)), (decide (key = t)); congruence.
  - destruct (decide (k = t)) as [->|Hkt]; cbn [own_property].
    + destruct (decide (t = key)) as [->|Htk].
      * by rewrite decide_True.
      * by rewrite decide_False by congruence.
    + destruct (decide (k = key)) as [->|Hkk]; [|exact IH].
      by rewrite decide_False by congruence.
Qed.

Lemma own_property_elem_of (tag : string) (c : count) (o : list (string * count)) :
  NoDup o.*1 → (tag, c) ∈ o ↔ own_property tag o = Some c.
Proof.
  induction o as [|[k c'] o IH]; intros Hdup.
  - split; [by intros ?%elem_of_nil|done].
  - rewrite fmap_cons in Hdup. apply NoDup_cons in Hdup as [Hk Hdup].
    cbn [own_property fst] in *. rewrite elem_of_cons.
    destruct (decide (k = tag)) as [->|Hne].
    + split.
      * intros [[= ->]|Hin]; [done|]. destruct Hk.
        apply list_elem_of_fmap. by exists (tag, c).
      * intros [= ->]. by left.
    + rewrite <- IH by done. split; [|by right].
      intros [[= ? ?]|?]; [congruence|done].
Qed.

Lemma inherits_function (t : string) :
  t ∈ Object_prototype_functions → inherits t = true.
Proof. intros Ht. apply bool_decide_eq_true. by right. Qed.

Lemma inherits_false (t : string) :
  t ≠ "__proto__"%string → t ∉ Object_prototype_functions → inherits t = false.
Proof.
  intros Hproto Hfun. apply bool_decide_eq_false.
  intros [?|?]%elem_of_cons; done.
Qed.

(** What the next count of a tag is, by what the object holds for it. *)
Lemma incremented_recorded (t : string) (o : list (string * count)) (n : nat) :
  t ≠ "__proto__"%string →
  own_property t o = (if decide (n = 0%nat) then None else Some (recorded t n)) →
  incremented t o = recorded t (S n).
Proof.
  intros Hproto Hown. unfold incremented. rewrite Hown.
  unfold recorded. destruct (decide (n = 0%nat)) as [->|Hn].
  - case_bool_decide as Hfun.
    + by rewrite inherits_function.
    + by rewrite inherits_false.
  - by case_bool_decide.
Qed.

Lemma count_tag_tally (t : string) (counts : list (string * count)) f :
  tally counts f →
  tally (count_tag t counts) (λ tag, (f tag + if decide (tag = t) then 1 else 0)%nat).
Proof.
  intros [Hdup Hf]. unfold count_tag.
  destruct (decide (t = "__proto__"%string)) as [->|Hproto].
  - split; [done|]. intros tag. rewrite Hf.
    destruct (decide (tag = "__proto__"%string)) as [->|Hne].
    + by rewrite !decide_True by (by right).
    + replace (f tag + 0)%nat with (f tag) by lia. done.
  - split.
    + rewrite assign_keys. case_decide; [done|].
      apply NoDup_app. split; [done|]. split; [|apply NoDup_singleton].
      intros x Hx ->%list_elem_of_singleton. done.
    + intros tag. rewrite own_property_assign.
      destruct (decide (tag = t)) as [->|Hne].
      * rewrite decide_False by (intros [?|?]; [lia|done]).
        f_equal. replace (f t + 1)%nat with (S (f t)) by lia.
        apply incremented_recorded; [done|]. rewrite Hf.
        destruct (decide (f t = 0%nat)) as [E|E].
        -- by rewrite decide_True by (by left).
        -- by rewrite decide_False by (intros [?|?]; done).
      * rewrite Hf. replace (f tag + 0)%nat with (f tag) by lia. done.
Qed.

Lemma tally_ext counts f g : (∀ tag, f tag = g tag) → tally counts f → tally counts g.
Proof.
  intros Hfg [Hdup Hf]. split; [done|]. intros tag. by rewrite Hf, Hfg.
Qed.

Lemma count_tags_tally (tags : list string) (counts : list (string * count)) f :
  tally counts f →
  tally (foldl (λ counts tag, count_tag tag counts) counts tags)
        (λ tag, (f tag + length (filter (tag =.) tags))%nat).
Proof.
  revert counts f. induction tags as [|t tags IH]; intros counts f Hf.
  - cbn [foldl]. eapply tally_ext; [|exact Hf]. intros tag. simpl. lia.
  - cbn [foldl]. eapply tally_ext; [|apply IH, count_tag_tally, Hf].
    intros tag. cbn beta. rewrite filter_cons.
    destruct (decide (tag = t)); cbn [length]; lia.
Qed.

Lemma tagCounts_tally_from (books : list Book.t) (counts : list (string * count)) f :
  tally counts f →
  tally (foldl (λ counts book,
                  foldl (λ counts tag, count_tag tag counts)
                        counts (Book.tags book))
               counts books)
        (λ tag, (f tag + occurrences tag books)%nat).
Proof.
  revert counts f. induction books as [|b books IH]; intros counts f Hf.
  - cbn [foldl]. eapply tally_ext; [|exact Hf]. intros tag.
    unfold occurrences. simpl. lia.
  - cbn [foldl]. eapply tally_ext; [|apply IH, count_tags_tally, Hf].
    intros tag. cbn beta. unfold occurrences. rewrite fmap_cons.
    cbn [sum_list]. unfold id. lia.
Qed.

Lemma tagCounts_tally (books : list Book.t) :
  tally (tagCounts books) (λ tag, occurrences tag books).
Proof.
  eapply tally_ext; [|apply (tagCounts_tally_from books [] (λ _, 0%nat))].
  - done.
  - split; [constructor|]. intros tag. by rewrite decide_True by (by left).
Qed.

(** The own properties of the tag object, one by one. *)
Lemma elem_of_tagCounts (books : list Book.t) (tag : string) (c : count) :
  (tag, c) ∈ tagCounts books
  ↔ (0 < occurrences tag books)%nat ∧ tag ≠ "__proto__"%string
    ∧ c = recorded tag (occurrences tag books).
Proof.
  destruct (tagCounts_tally books) as [Hdup Hf].
  rewrite own_property_elem_of by done. rewrite Hf.
  case_decide as Hocc; split.
  - done.
  - intros (Hpos & Hproto & _). destruct Hocc; [lia|done].
  - intros [= <-]. split; [lia|]. split; [|done]. intros ->. apply Hocc. by right.
  - by intros (_ & _ & ->).
Qed.

(** The sum of the numbers held, one assignment at a time. *)
Lemma sum_assign (t : string) (c : count) (o : list (string * count)) :
  (sum_list ((λ e, numeric e.2) <$> assign t c o)
   + from_option numeric 0 (own_property t o))%nat
  = (sum_list ((λ e, numeric e.2) <$> o) + numeric c)%nat.
Proof.
  induction o as [|[k c'] o IH]; cbn [assign own_property].
  - cbn. lia.
  - destruct (decide (k = t)) as [->|Hne].
    + rewrite !fmap_cons. cbn [sum_list snd from_option]. unfold id. lia.
    + rewrite !fmap_cons. cbn [sum_list snd]. unfold id in *. lia.
Qed.

Lemma sum_count_tag (t : string) (counts : list (string * count)) f :
  tally counts f →
  sum_list ((λ e, numeric e.2) <$> count_tag t counts)
  = (sum_list ((λ e, numeric e.2) <$> counts)
     + if inherits t then 0 else 1)%nat.
Proof.
  intros [_ Hf]. unfold count_tag.
  destruct (decide (t = "__proto__"%string)) as [->|Hproto].
  { assert (inherits "__proto__" = true) as -> by (apply bool_decide_eq_true; left).
    lia. }
  pose proof (sum_assign t (incremented t counts) counts) as Hsum.
  unfold incremented in *. rewrite Hf in *. unfold recorded in *.
  destruct (decide (f t = 0%nat ∨ t = "__proto__"%string)) as [_|_].
  - cbn [from_option] in Hsum. destruct (inherits t); cbn [numeric] in Hsum; lia.
  - case_bool_decide as Hfun.
    + rewrite inherits_function in * by done. cbn [from_option numeric] in Hsum. lia.
    + rewrite inherits_false in * by done. cbn [from_option numeric] in Hsum. lia.
Qed.

Lemma sum_count_tags (tags : list string) (counts : list (string * count)) f :
  tally counts f →
  sum_list ((λ e, numeric e.2)
              <$> foldl (λ counts tag, count_tag tag counts) counts tags)
  = (sum_list ((λ e, numeric e.2) <$> counts)
     + length (filter (λ tag, inherits tag = false) tags))%nat.
Proof.
  revert counts f. induction tags as [|t tags IH]; intros counts f Hf.
  - simpl. lia.
  - cbn [foldl]. rewrite (IH _ _ (count_tag_tally t _ _ Hf)).
    rewrite (sum_count_tag t _ _ Hf), filter_cons.
    destruct (inherits t); [rewrite decide_False by done|rewrite decide_True by done];
      cbn [length]; lia.
Qed.

Lemma sum_tagCounts_from (books : list Book.t) (counts : list (string * count)) f :
  tally counts f →
  sum_list ((λ e, numeric e.2)
              <$> foldl (λ counts book,
                           foldl (λ counts tag, count_tag tag counts)
                                 counts (Book.tags book))
                        counts books)
  = (sum_list ((λ e, numeric e.2) <$> counts)
     + sum_list ((λ b, length (filter (λ tag, inherits tag = false) (Book.tags b)))
                   <$> books))%nat.
Proof.
  revert counts f. induction books as [|b books IH]; intros counts f Hf.
  - simpl. lia.
  - rewrite fmap_cons. cbn [foldl sum_list].
    rewrite (IH _ _ (count_tags_tally (Book.tags b) _ _ Hf)).
    rewrite (sum_count_tags _ _ _ Hf). unfold id. lia.
Qed.

Lemma sort_insert_Permutation {A} (cmp : A → A → Q) (x : A) (l : list A) :
  sort_insert cmp x l ≡ₚ x :: l.
Proof.
  induction l as [|y l IH]; [done|].
  cbn [sort_insert]. destruct (Qlt_le_dec _ _); [|done].
  rewrite IH. apply Permutation_swap.
Qed.

Lemma js_sort_Permutation {A} (cmp : A → A → Q) (l : list A) :
  js_sort cmp l ≡ₚ l.
Proof.
  induction l as [|x l IH]; [done|].
  unfold js_sort in *. cbn [foldr].
  by rewrite sort_insert_Permutation, IH.
Qed.

Lemma Object_entries_Permutation {A} (o : list (string * A)) :
  Object_entries o ≡ₚ o.
Proof.
  unfold Object_entries. rewrite js_sort_Permutation.
  apply filter_app_complement.
Qed.

(** C8.  The counts of the tag object add up to the number of occurrences
    of the tags that name no member of [Object.prototype], whatever the
    status of the books, and so do the counts of the sorted frequency list.
    An occurrence of a tag that does name one is not counted: for
    [constructor] the object holds a string, for [__proto__] it holds
    nothing, and the counts of a book tagged twice add up to 1. *)
Theorem tag_counts_miss_inherited_names :
  (∀ books,
     sum_list ((λ e, numeric e.2) <$> Object_entries (tagCounts books))
     = sum_list ((λ b, length (filter (λ tag, inherits tag = false) (Book.tags b)))
                   <$> books)
     ∧ sum_list ((λ e, numeric e.2) <$> sortedTags books)
       = sum_list ((λ e, numeric e.2) <$> Object_entries (tagCounts books)))
  ∧ Object_entries (tagCounts [pillars])
    = [("constructor"%string, text_of "constructor" 1); ("classic"%string, number_of 1)]
  ∧ Object_entries (tagCounts [frankenstein]) = [("classic"%string, number_of 1)]
  ∧ topTags [frankenstein] = [("classic"%string, number_of 1)]
  ∧ sum_list ((λ b, length (Book.tags b)) <$> [pillars]) = 2%nat
  ∧ sum_list ((λ b, length (Book.tags b)) <$> [frankenstein]) = 2%nat.
Proof.
  split; [|repeat split; vm_compute; reflexivity].
  intros books. split.
  - rewrite Object_entries_Permutation. unfold tagCounts.
    rewrite (sum_tagCounts_from books [] (λ _, 0%nat)); [done|].
    split; [constructor|]. intros tag. by rewrite decide_True by (by left).
  - unfold sortedTags. by rewrite js_sort_Permutation.
Qed.

Lemma ratingDist_init_lookup (k : Z) :
  ratingDist_init !! k = if decide (1 ≤ k ≤ 5) then Some 0%nat else None.
Proof.
  unfold ratingDist_init.
  destruct (decide (k = 5)) as [->|]; [done|].
  destruct (decide (k = 4)) as [->|]; [done|].
  destruct (decide (k = 3)) as [->|]; [done|].
  destruct (decide (k = 2)) as [->|]; [done|].
  destruct (decide (k = 1)) as [->|]; [done|].
  rewrite !lookup_insert_ne, lookup_singleton_ne by done.
  case_decide; [lia|done].
Qed.

(** One pass of the [forEach] over [ratedBooks], from any state of the
    counters. *)
Lemma ratingDist_fold (l : list Book.t) (dist : gmap Z nat) (k : Z) :
  foldl (λ dist book,
           let rating := Math_round (getAverageRating book) in
           if decide (1 ≤ rating ∧ rating ≤ 5) then increment rating dist
           else dist) dist l !! k
  = (λ n, (n + length (filter (λ b, (Math_round (getAverageRating b) = k
                                     ∧ 1 ≤ k ≤ 5)%Z) l))%nat) <$> dist !! k.
Proof.
  revert dist. induction l as [|b l IH]; intros dist.
  - cbn [foldl filter list_filter length]. destruct (dist !! k); simpl; f_equal; lia.
  - cbn [foldl]. rewrite IH, filter_cons. clear IH.
    set (r := Math_round (getAverageRating b)).
    destruct (decide (1 ≤ r ∧ r ≤ 5)) as [Hr|Hr].
    + unfold increment. rewrite lookup_alter.
      destruct (decide (r = k)) as [->|Hne].
      * rewrite decide_True by done. cbn [length].
        destruct (dist !! k); simpl; f_equal; lia.
      * rewrite decide_False by tauto. done.
    + rewrite decide_False; [done|]. intros [-> ?]. tauto.
Qed.

(** C1 (amended).  The counter of [k], for [k] from 1 to 5, is the number of
    books that are read, have at least one review and whose average rating,
    rounded half up, is [k]; there are no other counters.  A read, reviewed
    book with a rounded average outside 1-5 is counted nowhere, and so is a
    reviewed book that is not read. *)
Theorem ratingDist_buckets `{Host} (books : list Book.t) (k : Z) :
  Stats.ratingDist (ReadingStats books) !! k
  = if decide (1 ≤ k ≤ 5)
    then Some (length (filter (λ b, Book.status b = read ∧ has_reviews b
                                    ∧ Math_round (getAverageRating b) = k)
                              books))
    else None.
Proof.
  cbn [ReadingStats Stats.ratingDist]. unfold ratingDist.
  rewrite ratingDist_fold, ratingDist_init_lookup.
  case_decide as Hk; [|done].
  cbn [fmap option_fmap option_map]. f_equal.
  rewrite !list_filter_filter. cbn [Nat.add]. f_equal.
  apply list_filter_iff. intros b. tauto.
Qed.

(** C1, as stated, fails: a book that is being read and has a review rated 4
    belongs to bucket 4 by the wording, and the engine counts it nowhere. *)
Lemma ratingDist_skips_unread_book :
  ratingDistribution_spec [persuasion; ulysses] !! 4 = Some 1%nat
  ∧ Stats.ratingDist (@ReadingStats (utc_host 2024) [persuasion; ulysses]) !! 4
    = Some 0%nat.
Proof. split; vm_compute; reflexivity. Qed.

(** Nor is a rounded average outside 1-5 clamped: a read book whose only
    review is unrated (0) is left out instead of landing in bucket 1. *)
Lemma ratingDist_drops_out_of_range :
  ratingDistribution_spec [walden] !! 1 = Some 1%nat
  ∧ Stats.ratingDist (@ReadingStats (utc_host 2024) [walden]) !! 1 = Some 0%nat.
Proof. split; vm_compute; reflexivity. Qed.

(** The scenario of the specification: two read books rated 5 and 3 and an
    unread one without reviews give an average of 4 and one book in each of
    the buckets 5 and 3. *)
Lemma stats_of_three_books :
  let stats := @ReadingStats (utc_host 2024) [beloved; dune; ulysses] in
  (Stats.avgRating stats == 4)%Q
  ∧ (λ k, Stats.ratingDist stats !! k) <$> [1; 2; 3; 4; 5; 6]
    = [Some 0; Some 0; Some 1; Some 0; Some 1; None]%nat
  ∧ Stats.topTags stats = [("classic"%string, number_of 3); ("scifi"%string, number_of 1)]
  ∧ (Stats.totalRead stats, Stats.totalReading stats, Stats.totalWantToRead stats)
    = (2, 0, 1)%nat.
Proof. repeat split; vm_compute; reflexivity. Qed.

(** With every rating in 1-5, each read, reviewed book lands in a bucket. *)
Lemma rated_book_has_bucket (b : Book.t) :
  has_reviews b →
  Forall (λ r, 1 ≤ Review.rating r ≤ 5) (Book.reviews b) →
  1 ≤ Math_round (getAverageRating b) ≤ 5.
Proof.
  intros Hrev Hall. apply Math_round_between.
  apply getAverageRating_between; [|by apply Forall_forall].
  unfold has_reviews in Hrev. destruct (Book.reviews b); [simpl in Hrev; lia|done].
Qed.

(** ** Reading goal synchronisation *)

(** C2.  After a sync the goal stored for the current year holds, as
    [current], the number of all books with status read, whatever their
    date.  When no goal was stored for the year the new one has target 24
    (with no read books it is year, 24, 0); a stored target is kept. *)
Theorem sync_recounts `{Host} (db : Db.t) :
  let count := Z.of_nat (length (filter (λ b, Book.status b = read) (Db.book db))) in
  let goal := (sync db).1 in
  let after := (sync db).2 in
  Db.readingGoal after !! currentYear = Some goal
  ∧ ReadingGoal.current goal = count
  ∧ (Db.readingGoal db !! currentYear = None →
     goal = {| ReadingGoal.year := currentYear; ReadingGoal.target := 24;
               ReadingGoal.current := count |})
  ∧ (Db.readingGoal db !! currentYear = None → count = 0 →
     goal = {| ReadingGoal.year := currentYear; ReadingGoal.target := 24;
               ReadingGoal.current := 0 |})
  ∧ (∀ stored, Db.readingGoal db !! currentYear = Some stored →
     ReadingGoal.target goal = ReadingGoal.target stored)
  ∧ Db.book after = Db.book db.
Proof.
  intros count goal after. subst goal after. unfold sync, upsert.
  fold count. cbn [fst snd Db.readingGoal Db.book].
  split; [by rewrite lookup_insert_eq|].
  destruct (Db.readingGoal db !! currentYear) as [stored|] eqn:Hstored.
  - repeat split; try done. by intros ? [= <-].
  - repeat split; try done. by intros _ ->.
Qed.

Lemma sync_recounts_witness :
  (@sync (utc_host 2024) db0).1 = goal_2024
  ∧ (@sync (utc_host 2024)
       {| Db.book := [hamlet; emma; ulysses]; Db.readingGoal := {[2024 := goal_2024]} |}).1
    = {| ReadingGoal.year := 2024; ReadingGoal.target := 24;
         ReadingGoal.current := 2 |}.
Proof.
  split.
  - apply (@sync_recounts (utc_host 2024) db0); reflexivity.
  - reflexivity.
Defined.

(** The unmounted route of routes/goals.ts counts the current year only: with
    one book read in 2023 and one in 2024 it stores 1 where the mounted route
    stores 2. *)
Lemma goals_sync_is_year_restricted :
  let db := {| Db.book := [hamlet; emma]; Db.readingGoal := ∅ |} in
  ReadingGoal.current (@goals_sync (utc_host 2024) db).1 = 1
  ∧ ReadingGoal.current (@sync (utc_host 2024) db).1 = 2.
Proof. split; reflexivity. Qed.

(** ** Status changes and the progress of a book *)

Lemma status_updates_read (books : list Book.t) (bookId : string)
    (book : Book.t) (pages : Z) :
  find_book bookId books = Some book →
  Book.totalPages book = Some pages → pages ≠ 0 →
  status_updates books bookId read
  = {| Updates.status := Some read; Updates.progress := value pages |}.
Proof.
  intros Hfind Hpages Hne. unfold status_updates. rewrite Hfind.
  cbn [mbind option_bind]. rewrite Hpages.
  cbn [truthy default]. rewrite (proj2 (Z.eqb_neq pages 0) Hne). done.
Qed.

Lemma status_updates_reading (books : list Book.t) (bookId : string) :
  status_updates books bookId reading
  = {| Updates.status := Some reading; Updates.progress := absent |}.
Proof. done. Qed.

Lemma status_updates_want_to_read (books : list Book.t) (bookId : string) :
  status_updates books bookId want_to_read
  = {| Updates.status := Some want_to_read; Updates.progress := undefined |}.
Proof. done. Qed.

(** In the browser-storage build the edited book follows the lifecycle:
    progress is the page total after a change to read, is kept by a change to
    reading, and is cleared by a change to want-to-read. *)
Lemma merge_lifecycle (books : list Book.t) (book : Book.t) (pages : Z) :
  find_book (Book.id book) books = Some book →
  Book.totalPages book = Some pages → pages ≠ 0 →
  Book.progress (merge book (status_updates books (Book.id book) read))
  = Some pages
  ∧ Book.progress (merge book (status_updates books (Book.id book) reading))
    = Book.progress book
  ∧ Book.progress (merge book (status_updates books (Book.id book) want_to_read))
    = None.
Proof.
  intros Hfind Hpages Hne.
  by rewrite (status_updates_read _ _ _ _ Hfind Hpages Hne).
Qed.

(** The request of a change to want-to-read carries no progress key, and the
    route then keeps the progress of the row. *)
Lemma put_book_want_to_read (books : list Book.t) (id : string) (db : Db.t)
    (row : Book.t) :
  find_book id (Db.book db) = Some row →
  ∃ row', (put_book id (JSON_stringify (status_updates books id want_to_read)) db).1
          = Some row'
          ∧ Book.status row' = want_to_read
          ∧ Book.progress row' = Book.progress row.
Proof.
  intros Hrow. unfold put_book. rewrite Hrow. eexists. split; [done|]. done.
Qed.

(** C7 at the failing input.  In the backend build a book 120 pages into 300
    is moved from reading back to want-to-read: the client and the database
    both end with status want-to-read and progress still 120, where the
    browser-storage build clears it.  The changes to read and to reading do
    what the lifecycle says. *)
Theorem handleChangeStatus_keeps_progress :
  let after := (@handleChangeStatus (utc_host 2024) "b6" want_to_read app0 db0).1 in
  let stored := (@handleChangeStatus (utc_host 2024) "b6" want_to_read app0 db0).2 in
  let finished := (@handleChangeStatus (utc_host 2024) "b6" read app0 db0).1 in
  let resumed := (@handleChangeStatus (utc_host 2024) "b6" reading app0 db0).1 in
  (λ b, (Book.status b, Book.progress b)) <$> App.books app0
    = [(reading, Some 120); (want_to_read, None)]
  ∧ (λ b, (Book.status b, Book.progress b)) <$> App.books after
    = [(want_to_read, Some 120); (want_to_read, None)]
  ∧ (λ b, (Book.status b, Book.progress b)) <$> Db.book stored
    = [(want_to_read, Some 120); (want_to_read, None)]
  ∧ (λ b, (Book.status b, Book.progress b))
      <$> handleChangeStatus_local "b6" want_to_read (App.books app0)
    = [(want_to_read, None); (want_to_read, None)]
  ∧ (λ b, (Book.status b, Book.progress b)) <$> App.books finished
    = [(read, Some 300); (want_to_read, None)]
  ∧ (λ b, (Book.status b, Book.progress b)) <$> App.books resumed
    = [(reading, Some 120); (want_to_read, None)].
Proof. repeat split; vm_compute; reflexivity. Qed.

(** ** The filter/sort view *)

Section view.
Context `{Host}.

Lemma search_filter_sublist q l : search_filter q l `sublist_of` l.
Proof. unfold search_filter. destruct (nonempty q); [apply sublist_filter|done]. Qed.

Lemma status_filter_sublist s l : status_filter s l `sublist_of` l.
Proof. destruct s; [done|apply sublist_filter]. Qed.

Lemma shelf_filter_sublist s l : shelf_filter s l `sublist_of` l.
Proof.
  unfold shelf_filter.
  destruct (_ && _); [apply sublist_filter|].
  destruct (builtin_shelf s); [apply sublist_filter|done].
Qed.

Lemma tag_filter_sublist t l : tag_filter t l `sublist_of` l.
Proof.
  destruct t as [tag|]; [|done]. cbn [tag_filter].
  destruct (nonempty tag); [apply sublist_filter|done].
Qed.

(** The filters keep the books they keep in their order. *)
Lemma filtered_sublist v books : filtered v books `sublist_of` books.
Proof.
  unfold filtered.
  etrans; [apply tag_filter_sublist|].
  etrans; [apply shelf_filter_sublist|].
  etrans; [apply status_filter_sublist|].
  apply search_filter_sublist.
Qed.

(** The sort of the view only reorders. *)
Lemma filteredBooks_Permutation v books :
  filteredBooks v books ≡ₚ filtered v books.
Proof. apply js_sort_Permutation. Qed.

(** C6.  Whatever the query, filters and sort, the view is a sub-multiset
    of the collection: each of its books is a book of the collection, and
    no book occurs in it more often than in the collection. *)
Theorem filteredBooks_submseteq v books :
  filteredBooks v books ⊆+ books
  ∧ (∀ b, b ∈ filteredBooks v books → b ∈ books)
  ∧ (∀ b, length (filter (b =.) (filteredBooks v books))
          ≤ length (filter (b =.) books))%nat.
Proof.
  assert (filteredBooks v books ⊆+ books) as Hsub.
  { rewrite filteredBooks_Permutation.
    apply sublist_submseteq, filtered_sublist. }
  split; [done|]. split.
  - intros b Hb. by eapply elem_of_submseteq.
  - intros b. apply submseteq_Permutation in Hsub as [k Hk].
    rewrite (Permutation_length (filter_Permutation (b =.) _ _ Hk)).
    rewrite filter_app, length_app. lia.
Qed.

Lemma filter_none {A} (P : A → Prop) `{∀ x, Decision (P x)} (l : list A) :
  (∀ x, x ∈ l → ¬ P x) → filter P l = [].
Proof.
  induction l as [|x l IH]; intros Hnone; [done|].
  rewrite filter_cons, decide_False by (apply Hnone; left).
  apply IH. intros y Hy. apply Hnone. by right.
Qed.

(** C5.  With the status filter on reading and the shelf filter on the
    built-in shelf read, the view is empty for every collection, query, tag
    filter and sort: the status filter keeps books that are being read and
    the shelf filter, applied to what is left, keeps books that are read. *)
Theorem reading_on_read_shelf_is_empty q tag sortBy sortDirection books :
  filteredBooks
    {| View.searchQuery := q; View.statusFilter := status_is reading;
       View.shelfFilter := "read"; View.tagFilter := tag;
       View.sortBy := sortBy; View.sortDirection := sortDirection |}
    books
  = [].
Proof.
  unfold filteredBooks, filtered.
  cbn [View.searchQuery View.statusFilter View.shelfFilter View.tagFilter
       View.sortBy View.sortDirection status_filter].
  assert (shelf_filter "read"
            (filter (λ book, Book.status book = reading) (search_filter q books))
          = []) as ->.
  { change (shelf_filter "read" ?l)
      with (filter (λ book, status_string (Book.status book) = "read"%string) l).
    apply filter_none. intros b [Hb _]%list_elem_of_filter.
    rewrite Hb. done. }
  by destruct tag as [t|]; cbn [tag_filter]; [destruct (nonempty t)|].
Qed.
End view.

(** ** Sorting *)

Lemma Sorted_impl {A} (R1 R2 : relation A) (l : list A) :
  (∀ x y, R1 x y → R2 x y) → Sorted R1 l → Sorted R2 l.
Proof.
  intros Himpl. induction 1 as [|x l _ IH Hhd]; constructor; [done|].
  destruct Hhd; constructor; auto.
Qed.

(** For a comparator that never answers "after" both ways round, the sort
    leaves each element not after its successor. *)
Lemma js_sort_Sorted {A} (cmp : A → A → Q) (l : list A) :
  (∀ x y, (0 < cmp x y)%Q → (cmp y x <= 0)%Q) →
  Sorted (λ x y, (cmp x y <= 0)%Q) (js_sort cmp l).
Proof.
  intros Htotal. induction l as [|x l IH]; [constructor|].
  unfold js_sort in *. cbn [foldr].
  induction IH as [|y l' Hsorted IH' Hhd]; cbn [sort_insert].
  - repeat constructor.
  - destruct (Qlt_le_dec 0 (cmp x y)) as [Hgt|Hle].
    + constructor; [done|].
      destruct Hhd as [|z l'' Hyz]; cbn [sort_insert].
      * constructor. by apply Htotal.
      * destruct (Qlt_le_dec 0 (cmp x z)); constructor; [done|by apply Htotal].
    + constructor; [by constructor|by constructor].
Qed.

Lemma Qle_inject_Z_0 (z : Z) : (inject_Z z <= 0)%Q ↔ z ≤ 0.
Proof. change 0%Q with (inject_Z 0). by rewrite <- Zle_Qle. Qed.

Lemma Qge_inject_Z_0 (z : Z) : (0 <= inject_Z z)%Q ↔ 0 ≤ z.
Proof. change 0%Q with (inject_Z 0). by rewrite <- Zle_Qle. Qed.

Section ordering.
Context `{Host}.
Hypothesis collation : consistent_collation localeCompare.

Lemma localeCompare_flip a b : 0 ≤ localeCompare a b ↔ localeCompare b a ≤ 0.
Proof.
  destruct collation as [Hsgn _]. specialize (Hsgn a b).
  destruct (Z.sgn_spec (localeCompare a b)) as [[? Hab]|[[? Hab]|[? Hab]]];
  destruct (Z.sgn_spec (localeCompare b a)) as [[? Hba]|[[? Hba]|[? Hba]]];
    rewrite Hab, Hba in Hsgn; lia.
Qed.

(** Swapping the two books swaps "not before" and "not after". *)
Lemma comparison_flip sortBy a b :
  (0 <= comparison sortBy a b)%Q ↔ (comparison sortBy b a <= 0)%Q.
Proof.
  destruct sortBy; cbn [comparison].
  - rewrite Qge_inject_Z_0, Qle_inject_Z_0. lia.
  - split; intros; lra.
  - rewrite Qge_inject_Z_0, Qle_inject_Z_0. apply localeCompare_flip.
  - rewrite Qge_inject_Z_0, Qle_inject_Z_0. apply localeCompare_flip.
Qed.

Lemma comparison_trans sortBy a b c :
  (comparison sortBy a b <= 0)%Q → (comparison sortBy b c <= 0)%Q →
  (comparison sortBy a c <= 0)%Q.
Proof.
  destruct collation as [_ Htrans].
  destruct sortBy; cbn [comparison].
  - rewrite !Qle_inject_Z_0. lia.
  - intros; lra.
  - rewrite !Qle_inject_Z_0. apply Htrans.
  - rewrite !Qle_inject_Z_0. apply Htrans.
Qed.

Lemma comparison_total sortBy a b :
  (0 < comparison sortBy a b)%Q → (comparison sortBy b a <= 0)%Q.
Proof. intros Hlt. apply comparison_flip. lra. Qed.

(** Ascending order: no book is after its successor. *)
Lemma ascending_Sorted sortBy l :
  Sorted (λ a b, (comparison sortBy a b <= 0)%Q)
         (js_sort (compareFn sortBy asc) l).
Proof. apply (js_sort_Sorted (comparison sortBy)), comparison_total. Qed.

(** Descending order: no book is before its successor. *)
Lemma descending_Sorted sortBy l :
  Sorted (flip (λ a b, (comparison sortBy a b <= 0)%Q))
         (js_sort (compareFn sortBy desc) l).
Proof.
  eapply Sorted_impl; [|apply (js_sort_Sorted (compareFn sortBy desc))].
  - intros x y Hxy. cbn [compareFn] in Hxy. unfold flip.
    apply comparison_flip. lra.
  - intros x y Hxy. cbn [compareFn] in *.
    assert (comparison sortBy x y <= 0)%Q as Hle by lra.
    apply comparison_flip in Hle.
    pose proof (proj2 (comparison_flip sortBy y x)) as Hback. lra.
Qed.
End ordering.

Section reversal.
Context `{Host}.

Lemma filtered_directed d v books : filtered (directed d v) books = filtered v books.
Proof. done. Qed.

(** C3 (amended).  When the collation is consistent and no two different
    books of the filtered list tie under the sort key, the ascending view
    reversed is the descending view. *)
Theorem reversed_ascending_is_descending (v : View.t) (books : list Book.t) :
  consistent_collation localeCompare →
  tie_free (View.sortBy v) (filtered v books) →
  reverse (filteredBooks (directed asc v) books)
  = filteredBooks (directed desc v) books.
Proof.
  intros Hcoll Hties. unfold filteredBooks. rewrite !filtered_directed.
  cbn [directed View.sortBy View.sortDirection].
  set (l := filtered v books) in *. set (key := View.sortBy v) in *.
  assert (Transitive (flip (λ a b, (comparison key a b <= 0)%Q))) as Htrans.
  { intros a b c Hab Hbc. unfold flip in *.
    by eapply comparison_trans; [done|exact Hbc|]. }
  apply (Sorted_unique_strong (flip (λ a b, (comparison key a b <= 0)%Q))).
  - intros a b Ha Hb Hab Hba. unfold flip in *.
    apply Hties.
    + by rewrite reverse_Permutation, js_sort_Permutation in Ha.
    + by rewrite js_sort_Permutation in Hb.
    + apply (comparison_flip Hcoll) in Hab. lra.
  - apply Sorted_reverse, ascending_Sorted, Hcoll.
  - apply descending_Sorted, Hcoll.
  - by rewrite reverse_Permutation, !js_sort_Permutation.
Qed.
End reversal.

(** Code-unit comparison is a consistent collation. *)
Lemma string_compare_trans (a b c : string) :
  String.compare a b ≠ Gt → String.compare b c ≠ Gt → String.compare a c ≠ Gt.
Proof.
  revert b c. induction a as [|x a IH]; intros [|y b] [|z c]; simpl; try done.
  unfold Ascii.compare.
  destruct (N.compare_spec (N_of_ascii x) (N_of_ascii y));
    destruct (N.compare_spec (N_of_ascii y) (N_of_ascii z));
    destruct (N.compare_spec (N_of_ascii x) (N_of_ascii z));
    try done; try lia.
  apply IH.
Qed.

Lemma ordinal_compare_consistent : consistent_collation ordinal_compare.
Proof.
  split; unfold ordinal_compare.
  - intros a b. rewrite (String.compare_antisym b a).
    destruct (String.compare a b); reflexivity.
  - intros a b c Hab Hbc.
    pose proof (string_compare_trans a b c) as Htrans.
    destruct (String.compare a b), (String.compare b c), (String.compare a c);
      cbn [sign_of] in *; try lia; exfalso; by apply Htrans.
Qed.

Lemma reversed_ascending_is_descending_witness :
  Book.title <$> @filteredBooks (utc_host 2024) (view sortBy_title desc)
                   [emma; ulysses; dune]
  = ["Ulysses"; "Emma"; "Dune"]%string
  ∧ reverse (@filteredBooks (utc_host 2024) (view sortBy_title asc)
               [emma; ulysses; dune])
    = @filteredBooks (utc_host 2024) (view sortBy_title desc) [emma; ulysses; dune].
Proof.
  split; [reflexivity|].
  apply (@reversed_ascending_is_descending (utc_host 2024)
           (view sortBy_title asc) [emma; ulysses; dune]).
  - exact ordinal_compare_consistent.
  - intros a b Ha Hb.
    repeat (apply elem_of_cons in Ha as [->|Ha]);
      repeat (apply elem_of_cons in Hb as [->|Hb]);
      try (by apply elem_of_nil in Ha); try (by apply elem_of_nil in Hb);
      vm_compute; intros Hcmp; first [reflexivity|discriminate Hcmp].
Defined.

(** C3, as stated, fails on ties: the sort is stable, so two books without
    reviews keep their order in both directions, and reversing the ascending
    view swaps them. *)
Lemma reversed_ascending_differs_on_ties :
  Book.id <$> reverse (@filteredBooks (utc_host 2024) (view sortBy_rating asc)
                         [ulysses; middlemarch])
  = ["b6"; "b3"]%string
  ∧ Book.id <$> @filteredBooks (utc_host 2024) (view sortBy_rating desc)
                  [ulysses; middlemarch]
    = ["b3"; "b6"]%string.
Proof. split; reflexivity. Qed.

(** ** The memos and the store *)

Section store.
Context `{Host}.
Implicit Types (σ : store) (r : ref) (l : list Book.t).

Lemma bind_run {A B} (m : M A) (k : A → M B) σ :
  (m ≫= k) σ = k (m σ).1 (m σ).2.
Proof. unfold mbind, M_bind. by destruct (m σ). Qed.

Lemma alloc_fresh σ l : (alloc l σ).1 ∉ dom σ.
Proof. apply is_fresh. Qed.

Lemma alloc_extends σ l : σ ⊆ (alloc l σ).2.
Proof. apply insert_subseteq, not_elem_of_dom, is_fresh. Qed.

Lemma alloc_lookup σ l : snd (alloc l σ) !! fst (alloc l σ) = Some l.
Proof. apply lookup_insert_eq. Qed.

Lemma get_run σ r l : σ !! r = Some l → get r σ = (l, σ).
Proof. intros Hr. unfold get. by rewrite Hr. Qed.

(** [filter] on an array of the store: a new array, nothing else changes. *)
Lemma array_filter_run (P : Book.t → Prop) `{∀ b, Decision (P b)} σ r l :
  σ !! r = Some l →
  σ ⊆ (array_filter P r σ).2
  ∧ (fst (array_filter P r σ) ∉ dom σ)
  ∧ snd (array_filter P r σ) !! fst (array_filter P r σ) = Some (filter P l).
Proof.
  intros Hr. unfold array_filter. rewrite bind_run, (get_run _ _ _ Hr).
  cbn [fst snd].
  split; [apply alloc_extends|]. split; [apply alloc_fresh|apply alloc_lookup].
Qed.

Lemma fresh_array_spread σ r l : σ !! r = Some l → fresh_array σ (spread r σ) l.
Proof.
  intros Hr. unfold spread. rewrite bind_run, (get_run _ _ _ Hr). cbn [fst snd].
  split; [apply alloc_extends|]. split; [apply alloc_fresh|apply alloc_lookup].
Qed.

Lemma fresh_array_ret σ0 (out : ref * store) l :
  fresh_array σ0 out l → fresh_array σ0 ((mret out.1 : M ref) out.2) l.
Proof. by destruct out. Qed.

Lemma fresh_array_filter (P : Book.t → Prop) `{∀ b, Decision (P b)}
    σ0 (out : ref * store) l :
  fresh_array σ0 out l →
  fresh_array σ0 (array_filter P out.1 out.2) (filter P l).
Proof.
  intros (Hext & Hfresh & Hl).
  destruct (array_filter_run P _ _ _ Hl) as (Hext' & Hfresh' & Hl').
  split; [by trans out.2|]. split; [|done].
  intros Hin. apply Hfresh'. by eapply subseteq_dom.
Qed.

(** [sort] on an array that the first store did not have. *)
Lemma fresh_array_sort (cmp : Book.t → Book.t → Q) σ0 (out : ref * store) l :
  fresh_array σ0 out l →
  fresh_array σ0 (array_sort cmp out.1 out.2) (js_sort cmp l).
Proof.
  intros (Hext & Hfresh & Hl). unfold array_sort.
  rewrite bind_run, (get_run _ _ _ Hl). cbn [fst snd].
  unfold mbind, M_bind, put, mret, M_ret. cbn [fst snd].
  split; [|split; [done|apply lookup_insert_eq]].
  by apply insert_subseteq_r; [apply not_elem_of_dom|].
Qed.

(** The view memo computes [filteredBooks] into an array of its own. *)
Lemma filteredBooks_memo_spec v σ books_r books :
  σ !! books_r = Some books →
  fresh_array σ (filteredBooks_memo v books_r σ) (filteredBooks v books).
Proof.
  intros Hbooks. unfold filteredBooks_memo, filteredBooks, filtered.
  repeat (rewrite bind_run; cbv beta).
  apply fresh_array_sort.
  unfold tag_filter. destruct (View.tagFilter v) as [tag|];
    [destruct (nonempty tag)|];
    [apply fresh_array_filter|apply fresh_array_ret..].
  all: unfold shelf_filter; destruct (_ && _);
    [apply fresh_array_filter|
     destruct (builtin_shelf _);
       [apply fresh_array_filter|apply fresh_array_ret]].
  all: unfold status_filter; destruct (View.statusFilter v);
    [apply fresh_array_ret|apply fresh_array_filter].
  all: unfold search_filter; destruct (nonempty _);
    [apply fresh_array_filter|apply fresh_array_ret].
  all: by apply fresh_array_spread.
Qed.
End store.

Section stats_store.
Context `{Host}.
Implicit Types (σ : store) (r : ref) (l : list Book.t).

Lemma bind_filter_run {A} (P : Book.t → Prop) `{∀ b, Decision (P b)}
    (k : ref → M A) σ r l :
  σ !! r = Some l →
  ∃ r' σ', (array_filter P r ≫= k) σ = k r' σ'
           ∧ σ ⊆ σ' ∧ σ' !! r' = Some (filter P l).
Proof.
  intros Hl. destruct (array_filter_run P _ _ _ Hl) as (Hext & _ & Hl').
  eexists _, _. split; [apply bind_run|done].
Qed.

Lemma bind_get_run {A} (k : list Book.t → M A) σ r l :
  σ !! r = Some l → (get r ≫= k) σ = k l σ.
Proof. intros Hl. by rewrite bind_run, (get_run _ _ _ Hl). Qed.

(** Run the [filter] at the head of the goal, on an array known by [Hl]. *)
Ltac filter_step Hl r' σ' E L :=
  lazymatch goal with
  | |- context [(array_filter ?P ?r ≫= ?k) ?σ] =>
      destruct (bind_filter_run P k σ r _ Hl) as (r' & σ' & -> & E & L);
      cbv beta
  end.

(** Read the array known by [Hl] at the head of the goal. *)
Ltac get_step Hl :=
  lazymatch goal with
  | |- context [(get ?r ≫= ?k) ?σ] =>
      rewrite (bind_get_run k σ r _ Hl); cbv beta
  end.

(** The statistics memo computes [ReadingStats] and leaves every array of
    the store as it was. *)
Lemma ReadingStats_memo_spec σ books_r books :
  σ !! books_r = Some books →
  ∃ σ', ReadingStats_memo books_r σ = (ReadingStats books, σ') ∧ σ ⊆ σ'.
Proof.
  intros Hbooks. unfold ReadingStats_memo.
  filter_step Hbooks read_r σ1 E1 Hread.
  pose proof (lookup_weaken _ _ _ _ Hbooks E1) as Hbooks1.
  filter_step Hbooks1 reading_r σ2 E2 Hreading.
  pose proof (lookup_weaken _ _ _ _ Hbooks1 E2) as Hbooks2.
  pose proof (lookup_weaken _ _ _ _ Hread E2) as Hread2.
  filter_step Hbooks2 want_r σ3 E3 Hwant.
  pose proof (lookup_weaken _ _ _ _ Hread2 E3) as Hread3.
  pose proof (lookup_weaken _ _ _ _ Hreading E3) as Hreading3.
  filter_step Hread3 rated_r σ4 E4 Hrated.
  get_step Hrated.
  pose proof (lookup_weaken _ _ _ _ Hread3 E4) as Hread4.
  filter_step Hread4 paged_r σ5 E5 Hpaged.
  get_step Hpaged.
  assert (σ3 ⊆ σ5) as E35 by (by trans σ4).
  pose proof (lookup_weaken _ _ _ _ Hreading3 E35) as Hreading5.
  filter_step Hreading5 prog_r σ6 E6 Hprog.
  get_step Hprog.
  assert (σ3 ⊆ σ6) as E36 by (by trans σ5).
  assert (σ ⊆ σ6) as E06 by (trans σ1; [done|]; trans σ2; [done|]; by trans σ3).
  pose proof (lookup_weaken _ _ _ _ Hread3 E36) as Hread6.
  pose proof (lookup_weaken _ _ _ _ Hreading3 E36) as Hreading6.
  pose proof (lookup_weaken _ _ _ _ Hwant E36) as Hwant6.
  pose proof (lookup_weaken _ _ _ _ Hbooks E06) as Hbooks6.
  get_step Hread6. get_step Hreading6. get_step Hwant6. get_step Hbooks6.
  by exists σ6.
Qed.

(** C9.  Both memos leave the collection as it was: started in a store
    whose array [books_r] holds [books], the view memo and the statistics
    memo end in stores where every array of the first store, [books_r]
    among them, holds what it held, book for book.  The view is returned
    in an array that did not exist before. *)
Theorem memos_leave_books_unchanged (v : View.t) σ books_r books :
  σ !! books_r = Some books →
  (filteredBooks_memo v books_r σ).2 !! books_r = Some books
  ∧ (ReadingStats_memo books_r σ).2 !! books_r = Some books
  ∧ σ ⊆ (filteredBooks_memo v books_r σ).2
  ∧ σ ⊆ (ReadingStats_memo books_r σ).2
  ∧ (filteredBooks_memo v books_r σ).1 ≠ books_r
  ∧ (filteredBooks_memo v books_r σ).2 !! (filteredBooks_memo v books_r σ).1
    = Some (filteredBooks v books)
  ∧ (ReadingStats_memo books_r σ).1 = ReadingStats books.
Proof.
  intros Hbooks.
  destruct (filteredBooks_memo_spec v σ books_r books Hbooks)
    as (Hext & Hfresh & Hout).
  destruct (ReadingStats_memo_spec σ books_r books Hbooks) as (σ' & -> & Hext').
  cbn [fst snd].
  repeat split; try done.
  - by eapply lookup_weaken.
  - by eapply lookup_weaken.
  - intros Heq. apply Hfresh. rewrite Heq. by apply elem_of_dom_2 in Hbooks.
Qed.
End stats_store.

Lemma memos_leave_books_unchanged_witness :
  let σ : store := {[1%positive := [emma; ulysses; dune]]} in
  (@filteredBooks_memo (utc_host 2024) (view sortBy_title asc) 1%positive σ).2
    !! 1%positive = Some [emma; ulysses; dune]
  ∧ (@ReadingStats_memo (utc_host 2024) 1%positive σ).2
      !! 1%positive = Some [emma; ulysses; dune]
  ∧ Book.title
      <$> default [] ((@filteredBooks_memo (utc_host 2024) (view sortBy_title asc)
                         1%positive σ).2
                      !! (@filteredBooks_memo (utc_host 2024)
                            (view sortBy_title asc) 1%positive σ).1)
    = ["Dune"; "Emma"; "Ulysses"]%string.
Proof.
  intros σ.
  pose proof (@memos_leave_books_unchanged (utc_host 2024)
                (view sortBy_title asc) σ 1%positive [emma; ulysses; dune]
                eq_refl) as (Hview & Hstats & _ & _ & _ & Hout & _).
  split; [exact Hview|]. split; [exact Hstats|].
  rewrite Hout. reflexivity.
Defined.


(** * Further properties of the view *)

Section view_contents.
Context `{Host}.

Lemma elem_of_search_filter q l b :
  b ∈ search_filter q l
  ↔ b ∈ l ∧ (nonempty q → matches_query (toLowerCase q) b).
Proof.
  unfold search_filter. destruct (nonempty q).
  - rewrite list_elem_of_filter. naive_solver.
  - naive_solver.
Qed.

Lemma elem_of_status_filter f l b :
  b ∈ status_filter f l ↔ b ∈ l ∧ (∀ s, f = status_is s → Book.status b = s).
Proof.
  destruct f as [|s]; cbn [status_filter].
  - naive_solver.
  - rewrite list_elem_of_filter. naive_solver.
Qed.

Lemma elem_of_shelf_filter s l b :
  b ∈ shelf_filter s l
  ↔ b ∈ l ∧ (if builtin_shelf s then status_string (Book.status b) = s
             else s ≠ "all"%string → Book.shelf b = Some s).
Proof.
  unfold shelf_filter. destruct (builtin_shelf s); cbn [negb].
  - rewrite andb_false_r, list_elem_of_filter. naive_solver.
  - rewrite andb_true_r. case_bool_decide.
    + rewrite list_elem_of_filter. naive_solver.
    + naive_solver.
Qed.

Lemma elem_of_tag_filter t l b :
  b ∈ tag_filter t l
  ↔ b ∈ l ∧ (∀ tag, t = Some tag → nonempty tag → tag ∈ Book.tags b).
Proof.
  destruct t as [tag|]; cbn [tag_filter]; [|naive_solver].
  destruct (nonempty tag) eqn:Htag.
  - rewrite list_elem_of_filter. split.
    + intros [? ?]. split; [done|]. by intros ? [= <-].
    + intros [? Hall]. split; [|done]. apply Hall; [done|]. by rewrite Htag.
  - split; [|naive_solver]. intros ?. split; [done|].
    intros ? [= <-]. by rewrite Htag.
Qed.

(** The books left by the four filters, before the sort. *)
Lemma elem_of_filtered (v : View.t) (books : list Book.t) (b : Book.t) :
  b ∈ filtered v books
  ↔ b ∈ books
    ∧ (nonempty (View.searchQuery v) →
       matches_query (toLowerCase (View.searchQuery v)) b)
    ∧ (∀ s, View.statusFilter v = status_is s → Book.status b = s)
    ∧ (if builtin_shelf (View.shelfFilter v)
       then status_string (Book.status b) = View.shelfFilter v
       else View.shelfFilter v ≠ "all"%string →
            Book.shelf b = Some (View.shelfFilter v))
    ∧ (∀ tag, View.tagFilter v = Some tag → nonempty tag → tag ∈ Book.tags b).
Proof.
  unfold filtered.
  rewrite elem_of_tag_filter, elem_of_shelf_filter, elem_of_status_filter,
    elem_of_search_filter.
  tauto.
Qed.

(** X1.  A book is in the view exactly when it is in the collection and
    passes every active filter: the query (case-folded substring of title,
    author or a tag) when it is not empty, the status filter unless it is
    all, the shelf filter (a status for a built-in shelf, the shelf reference
    for any other value but all), and the tag filter when it holds a
    non-empty tag. *)
Theorem filteredBooks_membership (v : View.t) (books : list Book.t) (b : Book.t) :
  b ∈ filteredBooks v books
  ↔ b ∈ books
    ∧ (nonempty (View.searchQuery v) →
       matches_query (toLowerCase (View.searchQuery v)) b)
    ∧ (∀ s, View.statusFilter v = status_is s → Book.status b = s)
    ∧ (if builtin_shelf (View.shelfFilter v)
       then status_string (Book.status b) = View.shelfFilter v
       else View.shelfFilter v ≠ "all"%string →
            Book.shelf b = Some (View.shelfFilter v))
    ∧ (∀ tag, View.tagFilter v = Some tag → nonempty tag → tag ∈ Book.tags b).
Proof.
  unfold filteredBooks. rewrite js_sort_Permutation.
  apply elem_of_filtered.
Qed.
End view_contents.

(** A list in which no element is after its successor is left as it is. *)
Lemma js_sort_of_Sorted {A} (cmp : A → A → Q) (l : list A) :
  Sorted (λ x y, (cmp x y <= 0)%Q) l → js_sort cmp l = l.
Proof.
  induction 1 as [|x l _ IH Hhd]; [done|].
  unfold js_sort in *. cbn [foldr]. rewrite IH.
  destruct Hhd as [|y l' Hxy]; [done|]. cbn [sort_insert].
  destruct (Qlt_le_dec 0 (cmp x y)); [lra|done].
Qed.

(** Elements that a predicate [P] singles out keep their relative order,
    when nothing strictly after such an element is singled out as well. *)
Lemma sort_insert_filter {A} (cmp : A → A → Q) (P : A → Prop)
    `{∀ x, Decision (P x)} (x : A) (l : list A) :
  (∀ y, P x → (0 < cmp x y)%Q → ¬ P y) →
  filter P (sort_insert cmp x l) = filter P (x :: l).
Proof.
  intros Hclass. induction l as [|y l IH]; [done|].
  cbn [sort_insert]. destruct (Qlt_le_dec 0 (cmp x y)) as [Hgt|]; [|done].
  rewrite filter_cons, IH, !filter_cons.
  destruct (decide (P x)) as [Hx|Hx]; [|done].
  destruct (decide (P y)) as [Hy|]; [by destruct (Hclass y Hx Hgt)|done].
Qed.

Lemma js_sort_filter {A} (cmp : A → A → Q) (P : A → Prop)
    `{∀ x, Decision (P x)} (l : list A) :
  (∀ x y, P x → (0 < cmp x y)%Q → ¬ P y) →
  filter P (js_sort cmp l) = filter P l.
Proof.
  intros Hclass. induction l as [|x l IH]; [done|].
  unfold js_sort in *. cbn [foldr].
  rewrite sort_insert_filter by (intros y; apply Hclass).
  by rewrite !filter_cons, IH.
Qed.

Lemma filter_all {A} (P : A → Prop) `{∀ x, Decision (P x)} (l : list A) :
  (∀ x, x ∈ l → P x) → filter P l = l.
Proof.
  induction l as [|x l IH]; intros Hall; [done|].
  rewrite filter_cons, decide_True by (apply Hall; left).
  f_equal. apply IH. intros y Hy. apply Hall. by right.
Qed.

Section view_order.
Context `{Host}.
Hypothesis collation : consistent_collation localeCompare.

Lemma compareFn_total sortBy d a b :
  (0 < compareFn sortBy d a b)%Q → (compareFn sortBy d b a <= 0)%Q.
Proof.
  destruct d; cbn [compareFn]; intros Hlt.
  - by apply comparison_total.
  - assert (comparison sortBy a b <= 0)%Q as Hle by lra.
    pose proof (proj2 (comparison_flip collation sortBy b a) Hle). lra.
Qed.

Lemma compareFn_trans sortBy d a b c :
  (compareFn sortBy d a b <= 0)%Q → (compareFn sortBy d b c <= 0)%Q →
  (compareFn sortBy d a c <= 0)%Q.
Proof.
  destruct d; cbn [compareFn]; intros Hab Hbc.
  - by eapply comparison_trans.
  - assert (comparison sortBy c a <= 0)%Q as Hca.
    { eapply (comparison_trans collation sortBy c b a);
        apply (comparison_flip collation); lra. }
    pose proof (proj2 (comparison_flip collation sortBy a c) Hca). lra.
Qed.

(** Ties under the key are ties in either direction and form classes. *)
Lemma tie_not_after sortBy d a x y :
  (comparison sortBy a x == 0)%Q → (0 < compareFn sortBy d x y)%Q →
  ¬ (comparison sortBy a y == 0)%Q.
Proof.
  intros Hax Hxy Hay.
  assert (comparison sortBy x a <= 0)%Q as Hxa
    by (apply (comparison_flip collation); lra).
  assert (comparison sortBy y a <= 0)%Q as Hya
    by (apply (comparison_flip collation); lra).
  assert (comparison sortBy a x <= 0)%Q as Hax' by lra.
  assert (comparison sortBy a y <= 0)%Q as Hay' by lra.
  pose proof (comparison_trans collation sortBy x a y Hxa Hay') as Hle.
  pose proof (comparison_trans collation sortBy y a x Hya Hax') as Hge.
  apply (comparison_flip collation) in Hge.
  destruct d; cbn [compareFn] in Hxy; lra.
Qed.

(** X2.  With a consistent collation the view is in the requested order:
    no book of the view is after any later book of the view under the
    comparator of the chosen key and direction. *)
Theorem filteredBooks_StronglySorted (v : View.t) (books : list Book.t) :
  StronglySorted
    (λ a b, (compareFn (View.sortBy v) (View.sortDirection v) a b <= 0)%Q)
    (filteredBooks v books).
Proof.
  apply Sorted_StronglySorted.
  - intros a b c. apply compareFn_trans.
  - apply (js_sort_Sorted (compareFn _ _)). intros a b. apply compareFn_total.
Qed.

(** X3.  With a consistent collation the view of a view is that view:
    filtering and sorting again with the same parameters changes nothing. *)
Theorem filteredBooks_idempotent (v : View.t) (books : list Book.t) :
  filteredBooks v (filteredBooks v books) = filteredBooks v books.
Proof.
  assert (filtered v (filteredBooks v books) = filteredBooks v books) as Hfix.
  { set (l := filteredBooks v books).
    assert (∀ b, b ∈ l → b ∈ filtered v books) as Hl.
    { intros b Hb. unfold l, filteredBooks in Hb.
      by rewrite js_sort_Permutation in Hb. }
    unfold filtered.
    assert (search_filter (View.searchQuery v) l = l) as ->.
    { unfold search_filter. destruct (nonempty _) eqn:Hq; [|done].
      apply filter_all. intros b Hb%Hl%elem_of_filtered.
      destruct Hb as (_ & Hb & _). apply Hb. by rewrite Hq. }
    assert (status_filter (View.statusFilter v) l = l) as ->.
    { destruct (View.statusFilter v) as [|s] eqn:Hs; [done|].
      apply filter_all. intros b Hb%Hl%elem_of_filtered.
      destruct Hb as (_ & _ & Hb & _). by apply Hb. }
    assert (shelf_filter (View.shelfFilter v) l = l) as ->.
    { unfold shelf_filter.
      destruct (builtin_shelf (View.shelfFilter v)) eqn:Hb; cbn [negb].
      - rewrite andb_false_r. apply filter_all.
        intros b Hin%Hl%elem_of_filtered.
        destruct Hin as (_ & _ & _ & Hin & _). by rewrite Hb in Hin.
      - rewrite andb_true_r. case_bool_decide; [|done]. apply filter_all.
        intros b Hin%Hl%elem_of_filtered.
        destruct Hin as (_ & _ & _ & Hin & _). rewrite Hb in Hin. by apply Hin. }
    destruct (View.tagFilter v) as [tag|] eqn:Htag; [|done]. cbn [tag_filter].
    destruct (nonempty tag) eqn:Hne; [|done].
    apply filter_all. intros b Hin%Hl%elem_of_filtered.
    destruct Hin as (_ & _ & _ & _ & Hin). apply Hin; [done|]. by rewrite Hne. }
  unfold filteredBooks at 1. rewrite Hfix.
  apply js_sort_of_Sorted, (js_sort_Sorted (compareFn _ _)).
  intros a b. apply compareFn_total.
Qed.

(** X4.  The sort of the view is stable: the books that tie with a given
    book under the sort key appear in the view in the order the filters left
    them in, in both directions. *)
Theorem filteredBooks_stable (v : View.t) (books : list Book.t) (a : Book.t) :
  filter (λ b, (comparison (View.sortBy v) a b == 0)%Q) (filteredBooks v books)
  = filter (λ b, (comparison (View.sortBy v) a b == 0)%Q) (filtered v books).
Proof.
  apply (js_sort_filter (compareFn _ _)). intros x y. apply tie_not_after.
Qed.
End view_order.

Lemma filteredBooks_StronglySorted_witness :
  Book.title <$> @filteredBooks (utc_host 2024) (view sortBy_title desc)
                   [emma; ulysses; dune; beloved]
  = ["Ulysses"; "Emma"; "Dune"; "Beloved"]%string
  ∧ StronglySorted
      (λ a b, (@compareFn (utc_host 2024) sortBy_title desc a b <= 0)%Q)
      (@filteredBooks (utc_host 2024) (view sortBy_title desc)
         [emma; ulysses; dune; beloved]).
Proof.
  split; [reflexivity|].
  exact (@filteredBooks_StronglySorted (utc_host 2024) ordinal_compare_consistent
           (view sortBy_title desc) [emma; ulysses; dune; beloved]).
Defined.

Lemma filteredBooks_idempotent_witness :
  @filteredBooks (utc_host 2024) (view sortBy_rating asc)
    (@filteredBooks (utc_host 2024) (view sortBy_rating asc)
       [emma; ulysses; dune; beloved])
  = @filteredBooks (utc_host 2024) (view sortBy_rating asc)
      [emma; ulysses; dune; beloved].
Proof.
  exact (@filteredBooks_idempotent (utc_host 2024) ordinal_compare_consistent
           (view sortBy_rating asc) [emma; ulysses; dune; beloved]).
Defined.

Lemma filteredBooks_stable_witness :
  Book.id <$> filter (λ b, (@comparison (utc_host 2024) sortBy_rating ulysses b == 0)%Q)
                (@filteredBooks (utc_host 2024) (view sortBy_rating desc)
                   [ulysses; emma; middlemarch])
  = ["b3"; "b6"]%string
  ∧ filter (λ b, (@comparison (utc_host 2024) sortBy_rating ulysses b == 0)%Q)
      (@filteredBooks (utc_host 2024) (view sortBy_rating desc)
         [ulysses; emma; middlemarch])
    = filter (λ b, (@comparison (utc_host 2024) sortBy_rating ulysses b == 0)%Q)
        (@filtered (utc_host 2024) (view sortBy_rating desc)
           [ulysses; emma; middlemarch]).
Proof.
  split; [reflexivity|].
  exact (@filteredBooks_stable (utc_host 2024) ordinal_compare_consistent
           (view sortBy_rating desc) [ulysses; emma; middlemarch] ulysses).
Defined.

(** * Further properties of the statistics *)

(** X5.  The entries of the tag object have pairwise different keys, and a
    pair of a tag and a count is an entry exactly when the tag is written on
    some book, is not [__proto__], and the count is what the object records
    for the number of times the tag is written: that number, or, for a tag
    that names a function of [Object.prototype], a string. *)
Theorem tagCounts_entries (books : list Book.t) :
  NoDup (Object_entries (tagCounts books)).*1
  ∧ ∀ tag c, (tag, c) ∈ Object_entries (tagCounts books)
             ↔ (0 < occurrences tag books)%nat ∧ tag ≠ "__proto__"%string
               ∧ c = recorded tag (occurrences tag books).
Proof.
  split.
  - rewrite Object_entries_Permutation. apply tagCounts_tally.
  - intros tag c. rewrite Object_entries_Permutation. apply elem_of_tagCounts.
Qed.

Lemma occurrences_pos (tag : string) (books : list Book.t) :
  (0 < occurrences tag books)%nat → ∃ b, b ∈ books ∧ tag ∈ Book.tags b.
Proof.
  unfold occurrences. induction books as [|b books IH]; [simpl; lia|].
  rewrite fmap_cons. cbn [sum_list]. unfold id. intros Hpos.
  destruct (filter (tag =.) (Book.tags b)) as [|t l] eqn:Hfilter.
  - destruct IH as (b' & Hb' & Htag); [exact Hpos|].
    exists b'. split; [by right|done].
  - exists b. split; [left|].
    assert (t ∈ filter (tag =.) (Book.tags b)) as Ht by (rewrite Hfilter; left).
    apply list_elem_of_filter in Ht as [-> Ht]. done.
Qed.

Lemma Sorted_impl_Forall {A} (P : A → Prop) (R1 R2 : relation A) (l : list A) :
  (∀ x y, P x → P y → R1 x y → R2 x y) →
  Forall P l → Sorted R1 l → Sorted R2 l.
Proof.
  intros Himpl HP Hsorted. induction Hsorted as [|x l _ IH Hhd].
  - constructor.
  - apply Forall_cons in HP as [Hx HP]. constructor; [by apply IH|].
    destruct Hhd as [|y l' Hxy]; constructor.
    apply Forall_cons in HP as [Hy _]. by apply Himpl.
Qed.

(** With plain tags every count is a number. *)
Lemma plain_tags_numbers (books : list Book.t) :
  plain_tags books →
  Forall (λ e, ∃ n, e.2 = number_of n) (tagCounts books).
Proof.
  intros Hplain. apply Forall_forall. intros [tag c] Hin.
  apply elem_of_tagCounts in Hin as (Hpos & _ & ->).
  destruct (occurrences_pos _ _ Hpos) as (b & Hb & Htag).
  unfold plain_tags in Hplain. rewrite Forall_forall in Hplain.
  specialize (Hplain b Hb). rewrite Forall_forall in Hplain.
  specialize (Hplain tag Htag). cbn [snd]. unfold recorded.
  rewrite bool_decide_eq_false_2 by done. by eexists.
Qed.

(** X6.  When no tag names a function of [Object.prototype], [topTags]
    holds at most five entries, all of them entries of the tag object; it
    starts the whole frequency list, which is in non-increasing order of
    count, so no entry left out has a higher count than an entry kept. *)
Theorem topTags_most_frequent (books : list Book.t) :
  plain_tags books →
  (length (topTags books) ≤ 5)%nat
  ∧ (∀ e, e ∈ topTags books → e ∈ Object_entries (tagCounts books))
  ∧ topTags books ++ drop 5 (sortedTags books) ≡ₚ Object_entries (tagCounts books)
  ∧ StronglySorted (λ a b, count_le b.2 a.2) (sortedTags books)
  ∧ (∀ kept left_out, kept ∈ topTags books →
       left_out ∈ drop 5 (sortedTags books) →
       count_le left_out.2 kept.2).
Proof.
  intros Hplain.
  assert (StronglySorted (λ a b : string * count, count_le b.2 a.2)
            (sortedTags books)) as Hsorted.
  { apply Sorted_StronglySorted.
    { intros [? [x|]] [? [y|]] [? [z|]]; cbn; try done. lia. }
    apply (Sorted_impl_Forall (λ e, ∃ n, e.2 = number_of n)
             (λ a b, (by_count a b <= 0)%Q)).
    - intros [? a] [? b] [x Hx] [y Hy] Hab. cbn [snd] in *. subst a b.
      unfold by_count in Hab. cbn [snd count_le] in *.
      apply (proj1 (Qle_inject_Z_0 _)) in Hab. lia.
    - unfold sortedTags.
      rewrite js_sort_Permutation, Object_entries_Permutation.
      by apply plain_tags_numbers.
    - apply (js_sort_Sorted by_count). intros [? a] [? b]. unfold by_count.
      cbn [snd]. destruct a, b; try (intros Hlt; lra).
      intros Hab. apply Qle_inject_Z_0.
      change 0%Q with (inject_Z 0) in Hab.
      rewrite <- Zlt_Qlt in Hab. lia. }
  unfold topTags. split; [rewrite length_take; lia|].
  split; [|split; [|split; [done|]]].
  - intros e He. unfold sortedTags in He.
    rewrite <- (js_sort_Permutation by_count).
    by eapply elem_of_submseteq, sublist_submseteq, sublist_take.
  - rewrite take_drop. apply js_sort_Permutation.
  - intros kept left_out Hkept Hleft.
    rewrite <- (take_drop 5 (sortedTags books)) in Hsorted.
    by eapply (StronglySorted_app_1_elem_of _ _ _ _ _ Hsorted).
Qed.

Lemma one_bucket (x : Z) :
  1 ≤ x ≤ 5 →
  sum_list ((λ k, if decide (x = k) then 1%nat else 0%nat) <$> [1; 2; 3; 4; 5])
  = 1%nat.
Proof.
  intros Hx. cbn [fmap list_fmap sum_list foldr]. unfold id.
  repeat case_decide; lia.
Qed.

Lemma length_by_rounded_rating (f : Book.t → Z) (l : list Book.t) :
  Forall (λ b, 1 ≤ f b ≤ 5) l →
  sum_list ((λ k, length (filter (λ b, f b = k ∧ 1 ≤ k ≤ 5) l)) <$> [1; 2; 3; 4; 5])
  = length l.
Proof.
  induction 1 as [|b l Hb _ IH]; [done|].
  assert (∀ k, 1 ≤ k ≤ 5 →
            length (filter (λ b, f b = k ∧ 1 ≤ k ≤ 5) (b :: l))
            = ((if decide (f b = k) then 1 else 0)
               + length (filter (λ b, (f b = k ∧ 1 ≤ k ≤ 5)%Z) l))%nat) as Hstep.
  { intros k Hk. rewrite filter_cons.
    destruct (decide (f b = k));
      [rewrite decide_True by done|rewrite decide_False by tauto]; done. }
  pose proof (one_bucket (f b) Hb) as Hone.
  cbn [fmap list_fmap sum_list foldr] in *. rewrite !Hstep by lia.
  unfold id in *. clear Hstep. cbn [length]. lia.
Qed.

(** X7.  When every rating is an integer in 1-5, the five counters of the
    rating distribution add up to the number of books that are read and have
    a review: each such book is counted once. *)
Theorem ratingDist_total `{Host} (books : list Book.t) :
  Forall (λ b, Forall (λ r, 1 ≤ Review.rating r ≤ 5) (Book.reviews b)) books →
  sum_list ((λ k, default 0%nat (Stats.ratingDist (ReadingStats books) !! k))
              <$> [1; 2; 3; 4; 5])
  = length (filter (λ b, Book.status b = read ∧ has_reviews b) books).
Proof.
  intros Hratings. cbn [ReadingStats Stats.ratingDist]. unfold ratingDist.
  rewrite list_filter_filter.
  set (rated := filter (λ b, has_reviews b ∧ Book.status b = read) books).
  assert (filter (λ b, Book.status b = read ∧ has_reviews b) books = rated) as ->.
  { apply list_filter_iff. intros b. tauto. }
  rewrite <- (length_by_rounded_rating (λ b, Math_round (getAverageRating b)) rated).
  - cbn [fmap list_fmap]. rewrite !ratingDist_fold, !ratingDist_init_lookup.
    repeat (rewrite decide_True by lia). done.
  - apply Forall_forall. intros b [[Hrev _] Hin]%list_elem_of_filter.
    apply rated_book_has_bucket; [done|].
    by apply (proj1 (Forall_forall _ _) Hratings).
Qed.

Lemma ratingDist_total_witness :
  sum_list ((λ k, default 0%nat
                    (Stats.ratingDist
                       (@ReadingStats (utc_host 2024)
                          [emma; persuasion; dune; ulysses; beloved]) !! k))
              <$> [1; 2; 3; 4; 5])
  = 3%nat.
Proof.
  apply (@ratingDist_total (utc_host 2024)
           [emma; persuasion; dune; ulysses; beloved]).
  repeat (apply Forall_cons; split;
          [repeat (apply Forall_cons; split; [simpl; lia|]); apply Forall_nil_2|]).
  apply Forall_nil_2.
Defined.

Lemma booksByMonth_init_lookup (m : Z) :
  booksByMonth_init !! m = if decide (0 ≤ m < 12) then Some 0%nat else None.
Proof.
  case_decide as Hm.
  - assert (m = 0 ∨ m = 1 ∨ m = 2 ∨ m = 3 ∨ m = 4 ∨ m = 5 ∨ m = 6 ∨ m = 7
            ∨ m = 8 ∨ m = 9 ∨ m = 10 ∨ m = 11) as Hcases by lia.
    repeat (destruct Hcases as [->|Hcases]; [reflexivity|]). by subst.
  - unfold booksByMonth_init. cbn [seqZ].
    change (seqZ 0 12) with [0; 1; 2; 3; 4; 5; 6; 7; 8; 9; 10; 11].
    cbn [foldl]. rewrite !lookup_insert_ne by lia. done.
Qed.

(** One pass of the [forEach] over [readBooks], from any state of the
    month counters. *)
Lemma booksByMonth_fold `{Host} (l : list Book.t) (record : gmap Z nat) (m : Z) :
  foldl (λ record book,
           if decide (getFullYear (Book.dateAdded book) = currentYear)
           then increment (getMonth (Book.dateAdded book)) record
           else record) record l !! m
  = (λ n, (n + length (filter (λ b, getFullYear (Book.dateAdded b) = currentYear
                                    ∧ getMonth (Book.dateAdded b) = m) l))%nat)
      <$> record !! m.
Proof.
  revert record. induction l as [|b l IH]; intros record.
  - cbn [foldl]. rewrite filter_nil. destruct (record !! m); simpl; f_equal; lia.
  - cbn [foldl]. rewrite IH, filter_cons. clear IH.
    destruct (decide (getFullYear (Book.dateAdded b) = currentYear)) as [Hy|Hy].
    + unfold increment. rewrite lookup_alter.
      destruct (decide (getMonth (Book.dateAdded b) = m)) as [Hm|Hm].
      * rewrite decide_True by done. cbn [length]. subst m.
        destruct (record !! _); simpl; f_equal; lia.
      * rewrite decide_False by tauto. done.
    + rewrite decide_False by tauto. done.
Qed.

Lemma length_by_month (f : Book.t → Z) (l : list Book.t) :
  Forall (λ b, 0 ≤ f b < 12) l →
  sum_list ((λ m, length (filter (λ b, f b = m) l)) <$> seqZ 0 12) = length l.
Proof.
  change (seqZ 0 12) with [0; 1; 2; 3; 4; 5; 6; 7; 8; 9; 10; 11].
  induction 1 as [|b l Hb _ IH]; [done|].
  assert (∀ m, length (filter (λ b, f b = m) (b :: l))
               = ((if decide (f b = m) then 1 else 0)
                  + length (filter (λ b, f b = m) l))%nat) as Hstep.
  { intros m. rewrite filter_cons. by destruct (decide (f b = m)). }
  assert (sum_list ((λ m, if decide (f b = m) then 1%nat else 0%nat)
                      <$> [0; 1; 2; 3; 4; 5; 6; 7; 8; 9; 10; 11]) = 1%nat) as Hone.
  { cbn [fmap list_fmap sum_list foldr]. unfold id. repeat case_decide; lia. }
  cbn [fmap list_fmap sum_list foldr] in *. rewrite !Hstep.
  unfold id in *. clear Hstep. cbn [length]. lia.
Qed.

(** X8.  The month histogram has the twelve counters 0-11 and no other;
    counter [m] is the number of read books added in month [m] of the
    current year.  When every month is in 0-11, as for valid dates, the
    twelve counters add up to the number of read books added this year. *)
Theorem booksByMonth_buckets `{Host} (books : list Book.t) :
  Forall (λ b, 0 ≤ getMonth (Book.dateAdded b) < 12) books →
  (∀ m, Stats.booksByMonth (ReadingStats books) !! m
        = if decide (0 ≤ m < 12)
          then Some (length (filter (λ b, Book.status b = read
                                          ∧ getFullYear (Book.dateAdded b) = currentYear
                                          ∧ getMonth (Book.dateAdded b) = m) books))
          else None)
  ∧ sum_list ((λ m, default 0%nat (Stats.booksByMonth (ReadingStats books) !! m))
                <$> seqZ 0 12)
    = length (filter (λ b, Book.status b = read
                           ∧ getFullYear (Book.dateAdded b) = currentYear) books).
Proof.
  intros Hmonths. cbn [ReadingStats Stats.booksByMonth]. unfold booksByMonth.
  assert (∀ m, foldl (λ record book,
                        if decide (getFullYear (Book.dateAdded book) = currentYear)
                        then increment (getMonth (Book.dateAdded book)) record
                        else record)
                     booksByMonth_init (filter (λ b, Book.status b = read) books) !! m
               = (if decide (0 ≤ m < 12)
                  then Some (length (filter (λ b, Book.status b = read
                                ∧ getFullYear (Book.dateAdded b) = currentYear
                                ∧ getMonth (Book.dateAdded b) = m) books))
                  else None)) as Hbucket.
  { intros m. rewrite booksByMonth_fold, booksByMonth_init_lookup.
    case_decide; [|done]. cbn [fmap option_fmap option_map]. f_equal.
    rewrite list_filter_filter. cbn [Nat.add]. f_equal.
    apply list_filter_iff. intros b. tauto. }
  split; [exact Hbucket|].
  set (thisYear := filter (λ b, Book.status b = read
                               ∧ getFullYear (Book.dateAdded b) = currentYear) books).
  rewrite <- (length_by_month (λ b, getMonth (Book.dateAdded b)) thisYear).
  - f_equal. apply Forall_fmap_ext_1, Forall_forall.
    intros m Hm%elem_of_seqZ. rewrite Hbucket, decide_True by lia.
    cbn [default]. unfold thisYear, id. rewrite list_filter_filter.
    f_equal. apply list_filter_iff. intros b. tauto.
  - apply Forall_forall. intros b [_ Hin]%list_elem_of_filter.
    by apply (proj1 (Forall_forall _ _) Hmonths).
Qed.

Lemma booksByMonth_buckets_witness :
  (λ m, default 0%nat
          (Stats.booksByMonth
             (@ReadingStats (utc_host 2024) [emma; hamlet; dune; ulysses]) !! m))
    <$> seqZ 0 12
  = [0; 0; 2; 0; 0; 0; 0; 0; 0; 0; 0; 0]%nat
  ∧ sum_list ((λ m, default 0%nat
                      (Stats.booksByMonth
                         (@ReadingStats (utc_host 2024)
                            [emma; hamlet; dune; ulysses]) !! m))
                <$> seqZ 0 12)
    = length (filter (λ b, Book.status b = read
                           ∧ @getFullYear (utc_host 2024) (Book.dateAdded b) = 2024)
                     [emma; hamlet; dune; ulysses]).
Proof.
  split; [reflexivity|].
  apply (@booksByMonth_buckets (utc_host 2024) [emma; hamlet; dune; ulysses]).
  repeat (apply Forall_cons; split; [vm_compute; split; [discriminate|reflexivity]|]).
  apply Forall_nil_2.
Defined.

Lemma foldl_average_bounds (lo hi : Q) (l : list Book.t) (acc : Q) :
  Forall (λ b, (lo <= getAverageRating b <= hi)%Q) l →
  (acc + lo * inject_Z (Z.of_nat (length l))
   <= foldl (λ sum b, sum + getAverageRating b) acc l
   <= acc + hi * inject_Z (Z.of_nat (length l)))%Q.
Proof.
  intros Hall. revert acc. induction Hall as [|b l [Hlo Hhi] _ IH]; intros acc.
  - cbn [foldl length]. change (inject_Z (Z.of_nat 0)) with 0%Q. lra.
  - cbn [foldl length]. rewrite Nat2Z.inj_succ, <- Z.add_1_r, inject_Z_plus.
    change (inject_Z 1) with 1%Q.
    specialize (IH (acc + getAverageRating b)%Q). lra.
Qed.

(** X9.  The average rating of the statistics is 0 when no read book has a
    review.  When every rating is an integer in 1-5 it lies in [0,5], and in
    [1,5] as soon as some read book has a review. *)
Theorem avgRating_in_range `{Host} (books : list Book.t) :
  (filter (λ b, Book.status b = read ∧ has_reviews b) books = [] →
   Stats.avgRating (ReadingStats books) = 0%Q)
  ∧ (Forall (λ b, Forall (λ r, 1 ≤ Review.rating r ≤ 5) (Book.reviews b)) books →
     (0 <= Stats.avgRating (ReadingStats books) <= 5)%Q
     ∧ (filter (λ b, Book.status b = read ∧ has_reviews b) books ≠ [] →
        (1 <= Stats.avgRating (ReadingStats books))%Q)).
Proof.
  cbn [ReadingStats Stats.avgRating]. rewrite list_filter_filter.
  assert (filter (λ b, Book.status b = read ∧ has_reviews b) books
          = filter (λ b, has_reviews b ∧ Book.status b = read) books) as ->.
  { apply list_filter_iff. intros b. tauto. }
  set (rated := filter (λ b, has_reviews b ∧ Book.status b = read) books).
  unfold avgRating. split.
  - intros ->. done.
  - intros Hratings. destruct rated as [|b0 rated'] eqn:Hrated.
    { cbn [length]. rewrite decide_False by lia. split; [lra|done]. }
    rewrite <- Hrated. rewrite decide_True by (rewrite Hrated; cbn [length]; lia).
    assert (Forall (λ b, (1 <= getAverageRating b <= 5)%Q) rated) as Hall.
    { apply Forall_forall. intros b [[Hrev _] Hin]%list_elem_of_filter.
      pose proof (proj1 (Forall_forall _ _) Hratings b Hin) as Hb.
      apply (getAverageRating_between 1 5).
      - unfold has_reviews in Hrev.
        destruct (Book.reviews b); [simpl in Hrev; lia|done].
      - by apply Forall_forall. }
    pose proof (foldl_average_bounds 1 5 rated 0 Hall) as [Hlo Hhi].
    assert (0 < inject_Z (Z.of_nat (length rated)))%Q as Hpos.
    { apply Q_of_length_pos. by rewrite Hrated. }
    assert (1 <= foldl (λ sum b, sum + getAverageRating b) 0 rated
                 / inject_Z (Z.of_nat (length rated)))%Q as H1.
    { apply Qle_shift_div_l; [done|]. lra. }
    assert (foldl (λ sum b, sum + getAverageRating b) 0 rated
              / inject_Z (Z.of_nat (length rated)) <= 5)%Q as H5.
    { apply Qle_shift_div_r; [done|]. lra. }
    split; [lra|done].
Qed.

Lemma avgRating_in_range_witness :
  (Stats.avgRating (@ReadingStats (utc_host 2024) [emma; dune; ulysses])
   == 7 # 2)%Q
  ∧ (0 <= Stats.avgRating (@ReadingStats (utc_host 2024) [emma; dune; ulysses])
     <= 5)%Q.
Proof.
  split; [reflexivity|].
  apply (@avgRating_in_range (utc_host 2024) [emma; dune; ulysses]).
  repeat (apply Forall_cons; split;
          [repeat (apply Forall_cons; split; [simpl; lia|]); apply Forall_nil_2|]).
  apply Forall_nil_2.
Defined.

(** X10.  The profile header, the statistics panel and each other agree:
    the counts by status, the average rating and the pages read that
    [App] computes are the ones [ReadingStats] computes. *)
Theorem stats_agree `{Host} (books : list Book.t) :
  ProfileStats.read (stats books) = Stats.totalRead (ReadingStats books)
  ∧ ProfileStats.reading (stats books) = Stats.totalReading (ReadingStats books)
  ∧ ProfileStats.wantToRead (stats books)
    = Stats.totalWantToRead (ReadingStats books)
  ∧ ProfileStats.avgRating (stats books) = Stats.avgRating (ReadingStats books)
  ∧ ProfileStats.totalPages (stats books) = Stats.totalPages (ReadingStats books).
Proof.
  cbn [stats ReadingStats ProfileStats.read ProfileStats.reading
       ProfileStats.wantToRead ProfileStats.avgRating ProfileStats.totalPages
       Stats.totalRead Stats.totalReading Stats.totalWantToRead Stats.avgRating
       Stats.totalPages].
  repeat split.
  - rewrite list_filter_filter. f_equal. apply list_filter_iff. intros b. tauto.
  - rewrite list_filter_filter. f_equal. apply list_filter_iff. intros b. tauto.
Qed.

Lemma foldl_or_zero (f : Book.t → option Z) (l : list Book.t) (acc : Z) :
  foldl (λ sum b, sum + or_zero (f b)) acc l
  = acc + foldl (λ sum b, sum + or_zero (f b)) 0 l.
Proof.
  revert acc. induction l as [|b l IH]; intros acc; cbn [foldl]; [lia|].
  rewrite IH, (IH (0 + _)). lia.
Qed.

Lemma or_zero_falsy (n : option Z) : truthy n = false → or_zero n = 0.
Proof. unfold or_zero. by intros ->. Qed.

(** The page sum over the books that pass [P] and have a page count, one
    book at a time. *)
Lemma page_sum_cons (P : Book.t → Prop) `{∀ b, Decision (P b)}
    (f : Book.t → option Z) (b : Book.t) (l : list Book.t) :
  foldl (λ sum b, sum + or_zero (f b)) 0
        (filter (λ b, truthy (f b)) (filter P (b :: l)))
  = (if decide (P b) then or_zero (f b) else 0)
    + foldl (λ sum b, sum + or_zero (f b)) 0
            (filter (λ b, truthy (f b)) (filter P l)).
Proof.
  rewrite (filter_cons P). destruct (decide (P b)); [|lia].
  rewrite filter_cons. destruct (decide (truthy (f b))) as [Ht|Ht].
  - cbn [foldl]. rewrite foldl_or_zero. lia.
  - rewrite or_zero_falsy; [lia|]. by destruct (truthy (f b)).
Qed.

(** X11.  Pages read and pages in progress are sums over the collection,
    book by book: a book adds its page count to the pages read when it is
    read, its progress to the pages in progress when it is being read, and
    nothing otherwise; a missing or zero count adds nothing. *)
Theorem page_totals_by_book `{Host} (b : Book.t) (books : list Book.t) :
  Stats.totalPages (ReadingStats (b :: books))
  = (if decide (Book.status b = read) then default 0 (Book.totalPages b) else 0)
    + Stats.totalPages (ReadingStats books)
  ∧ Stats.pagesInProgress (ReadingStats (b :: books))
    = (if decide (Book.status b = reading) then default 0 (Book.progress b) else 0)
      + Stats.pagesInProgress (ReadingStats books)
  ∧ Stats.totalPages (ReadingStats []) = 0
  ∧ Stats.pagesInProgress (ReadingStats []) = 0.
Proof.
  assert (∀ n, or_zero n = default 0 n) as Hor.
  { intros [n|]; [|done]. unfold or_zero, truthy. cbn [default].
    destruct (Z.eqb_spec n 0) as [->|]; cbn [negb default]; done. }
  cbn [ReadingStats Stats.totalPages Stats.pagesInProgress].
  unfold sum_totalPages, sum_progress.
  rewrite !page_sum_cons, !Hor. done.
Qed.

(** * Further properties of types/book.ts *)

Lemma foldl_later_review `{Host} (rest : list Review.t) (first : Review.t) :
  ∃ before after,
    first :: rest = before ++ foldl later_review first rest :: after
    ∧ Forall (λ r, getTime (Review.dateAdded r)
                   < getTime (Review.dateAdded (foldl later_review first rest)))
             before
    ∧ Forall (λ r, getTime (Review.dateAdded r)
                   ≤ getTime (Review.dateAdded (foldl later_review first rest)))
             after.
Proof.
  induction rest as [|x rest IH] using rev_ind.
  - exists [], []. by repeat split.
  - destruct IH as (before & after & Heq & Hbefore & Hafter).
    rewrite foldl_app. cbn [foldl]. set (latest := foldl later_review first rest) in *.
    assert (later_review latest x
            = if decide (getTime (Review.dateAdded latest)
                         < getTime (Review.dateAdded x)) then x else latest)
      as -> by done.
    destruct (decide (getTime (Review.dateAdded latest)
                      < getTime (Review.dateAdded x))) as [Hlt|Hge].
    + exists (before ++ latest :: after), []. split; [|split; [|done]].
      * by rewrite app_comm_cons, Heq.
      * apply Forall_app. split; [|apply Forall_cons; split; [done|]].
        -- eapply Forall_impl; [exact Hbefore|]. intros r Hr. cbn beta in *. lia.
        -- eapply Forall_impl; [exact Hafter|]. intros r Hr. cbn beta in *. lia.
    + exists before, (after ++ [x]). split; [|split; [done|]].
      * rewrite app_comm_cons, Heq. by rewrite <- app_assoc.
      * apply Forall_app. split; [done|]. apply Forall_singleton. lia.
Qed.

(** X12.  [getLatestReview] answers nothing exactly for a book without
    reviews.  Otherwise it answers a review of the book whose date no other
    review exceeds, and the first such review: every review before it is
    strictly older. *)
Theorem getLatestReview_first_latest `{Host} (book : Book.t) :
  match getLatestReview book with
  | None => Book.reviews book = []
  | Some latest =>
      ∃ before after,
        Book.reviews book = before ++ latest :: after
        ∧ Forall (λ r, getTime (Review.dateAdded r)
                       < getTime (Review.dateAdded latest)) before
        ∧ Forall (λ r, getTime (Review.dateAdded r)
                       ≤ getTime (Review.dateAdded latest)) after
  end.
Proof.
  unfold getLatestReview. destruct (Book.reviews book) as [|first rest]; [done|].
  apply foldl_later_review.
Qed.

Section migration_properties.
Variable trim : string → string.
Variable today : string.

(** X13.  A book saved in the current format comes back from [migrateBook]
    as it was, provided its date is not empty; and migrating the result of a
    migration again changes nothing, provided today's date is not empty. *)
Theorem migrateBook_round_trip (book : Book.t) (stored : Stored.t) :
  (nonempty (Book.dateAdded book) → migrateBook trim today (stored_of book) = book)
  ∧ (nonempty today →
     migrateBook trim today (stored_of (migrateBook trim today stored))
     = migrateBook trim today stored).
Proof.
  assert (∀ b, nonempty (Book.dateAdded b) → migrateBook trim today (stored_of b) = b)
    as Hid.
  { intros b Hdate. destruct b. unfold migrateBook, stored_of, or_today. cbn in *.
    by destruct (nonempty dateAdded). }
  split; [apply Hid|].
  intros Htoday. apply Hid.
  assert (nonempty (or_today today (Stored.dateAdded stored))) as Hdate.
  { unfold or_today. destruct (Stored.dateAdded stored) as [d|]; [|done].
    by destruct (nonempty d) eqn:Hd; [rewrite Hd|]. }
  unfold migrateBook. by destruct (Stored.reviews stored).
Qed.

(** X14.  A book stored in the old format gets at most one review: exactly
    one, with the old text, the old rating or 0, and the id [migrated-<id>],
    when the text is not blank, and none otherwise.  A missing status
    becomes read and missing tags become the empty list. *)
Theorem migrateBook_old_format (stored : Stored.t) :
  Stored.reviews stored = None →
  let book := migrateBook trim today stored in
  (length (Book.reviews book) ≤ 1)%nat
  ∧ (∀ text, Stored.review stored = Some text →
       nonempty text → nonempty (trim text) →
       Book.reviews book
       = [ {| Review.id := "migrated-" +:+ Stored.id stored;
              Review.content := text;
              Review.rating := default 0 (Stored.rating stored);
              Review.dateAdded := Book.dateAdded book |} ])
  ∧ ((∀ text, Stored.review stored = Some text →
        ¬ (nonempty text ∧ nonempty (trim text))) →
     Book.reviews book = [])
  ∧ (Stored.status stored = None → Book.status book = read)
  ∧ (Stored.tags stored = None → Book.tags book = []).
Proof.
  intros Hold book. subst book. unfold migrateBook. rewrite Hold.
  cbn [Book.reviews Book.status Book.tags Book.dateAdded].
  repeat split.
  - destruct (Stored.review stored) as [text|]; [|cbn; lia].
    destruct (_ && _); cbn; lia.
  - intros text -> H1 H2.
    destruct (nonempty text); [|done]. destruct (nonempty (trim text)); done.
  - intros Hblank. destruct (Stored.review stored) as [text|]; [|done].
    specialize (Hblank text eq_refl).
    destruct (nonempty text); [|done]. destruct (nonempty (trim text)); [|done].
    by destruct Hblank.
  - by intros ->.
  - by intros ->.
Qed.

(** X15.  The books loaded at start contain every stored book, migrated and
    in stored order, and every initial book that is not stored; each id of
    an initial book is the id of a loaded book, and when neither the stored
    nor the initial books repeat an id, the loaded books do not either. *)
Theorem load_books_ids (parsed : list Stored.t) (initialBooks : list Book.t) :
  let books := load_books trim today (Some parsed) initialBooks in
  take (length parsed) books = migrateBook trim today <$> parsed
  ∧ (∀ b, b ∈ initialBooks → Book.id b ∈ Book.id <$> books)
  ∧ (NoDup (Stored.id <$> parsed) → NoDup (Book.id <$> initialBooks) →
     NoDup (Book.id <$> books)).
Proof.
  intros books. subst books. unfold load_books.
  set (migrated := migrateBook trim today <$> parsed).
  assert (Book.id <$> migrated = Stored.id <$> parsed) as Hids.
  { unfold migrated. rewrite <- list_fmap_compose. apply list_fmap_ext.
    intros _ s _. cbn. unfold migrateBook. by destruct (Stored.reviews s). }
  split; [|split].
  - rewrite take_app_length'; [done|]. unfold migrated. by rewrite length_fmap.
  - intros b Hb. rewrite fmap_app, elem_of_app.
    destruct (decide (Book.id b ∈ Book.id <$> migrated)) as [Hin|Hnin]; [by left|].
    right. apply list_elem_of_fmap. exists b. split; [done|].
    by apply list_elem_of_filter.
  - intros Hsaved Hinit. rewrite fmap_app. apply NoDup_app. split; [|split].
    + by rewrite Hids.
    + intros id Hid (b & -> & [Hnin _]%list_elem_of_filter)%list_elem_of_fmap. done.
    + eapply sublist_NoDup; [exact Hinit|].
      by apply fmap_sublist, sublist_filter.
Qed.
End migration_properties.

Lemma migrateBook_round_trip_witness :
  migrateBook trim_ascii "2024-06-01" (stored_of emma) = emma
  ∧ migrateBook trim_ascii "2024-06-01"
      (stored_of (migrateBook trim_ascii "2024-06-01" old_blank))
    = migrateBook trim_ascii "2024-06-01" old_blank.
Proof.
  split.
  - apply (migrateBook_round_trip trim_ascii "2024-06-01" emma old_blank).
    exact I.
  - apply (migrateBook_round_trip trim_ascii "2024-06-01" emma old_blank).
    exact I.
Defined.

Lemma migrateBook_old_format_witness :
  Book.reviews (migrateBook trim_ascii "2024-06-01" old_walden)
  = [ {| Review.id := "migrated-b5"; Review.content := " Quiet and slow. ";
         Review.rating := 4; Review.dateAdded := "2021-05-02" |} ]
  ∧ Book.reviews (migrateBook trim_ascii "2024-06-01" old_blank) = []
  ∧ Book.status (migrateBook trim_ascii "2024-06-01" old_walden) = read.
Proof.
  pose proof (migrateBook_old_format trim_ascii "2024-06-01" old_walden eq_refl)
    as (_ & Hone & _ & Hstatus & _).
  pose proof (migrateBook_old_format trim_ascii "2024-06-01" old_blank eq_refl)
    as (_ & _ & Hnone & _).
  split; [|split].
  - exact (Hone " Quiet and slow. " eq_refl I I).
  - apply Hnone. intros text [= <-] [_ Hblank]. exact Hblank.
  - exact (Hstatus eq_refl).
Defined.

Lemma load_books_ids_witness :
  Book.id <$> load_books trim_ascii "2024-06-01" (Some [old_walden; stored_of emma])
                [emma; dune; walden]
  = ["b5"; "b1"; "b2"]%string
  ∧ NoDup (Book.id <$> load_books trim_ascii "2024-06-01"
                         (Some [old_walden; stored_of emma]) [emma; dune; walden]).
Proof.
  split; [reflexivity|].
  apply (load_books_ids trim_ascii "2024-06-01" [old_walden; stored_of emma]
           [emma; dune; walden]).
  - apply (bool_decide_unpack _). vm_compute. exact I.
  - apply (bool_decide_unpack _). vm_compute. exact I.
Defined.

(** * Further properties of App.tsx *)

Lemma set_add_NoDup (tags : list string) (tag : string) :
  NoDup tags → NoDup (set_add tags tag).
Proof.
  intros Hdup. unfold set_add. case_decide; [done|].
  apply NoDup_app. split; [done|]. split; [|apply NoDup_singleton].
  by intros x Hx ->%list_elem_of_singleton.
Qed.

Lemma elem_of_set_add (tags : list string) (tag x : string) :
  x ∈ set_add tags tag ↔ x ∈ tags ∨ x = tag.
Proof.
  unfold set_add. case_decide.
  - split; [by left|]. by intros [?| ->].
  - by rewrite elem_of_app, list_elem_of_singleton.
Qed.

Lemma foldl_set_add (new : list string) (tags : list string) :
  (NoDup tags → NoDup (foldl set_add tags new))
  ∧ ∀ x, x ∈ foldl set_add tags new ↔ x ∈ tags ∨ x ∈ new.
Proof.
  revert tags. induction new as [|t new IH]; intros tags; cbn [foldl].
  - split; [done|]. intros x. rewrite elem_of_nil. tauto.
  - destruct (IH (set_add tags t)) as [IHdup IHin]. split.
    + intros Hdup. by apply IHdup, set_add_NoDup.
    + intros x. rewrite IHin, elem_of_set_add, elem_of_cons. tauto.
Qed.

Lemma foldl_books_set_add (books : list Book.t) (tags : list string) :
  (NoDup tags →
   NoDup (foldl (λ tags book, foldl set_add tags (Book.tags book)) tags books))
  ∧ ∀ x, x ∈ foldl (λ tags book, foldl set_add tags (Book.tags book)) tags books
         ↔ x ∈ tags ∨ ∃ b, b ∈ books ∧ x ∈ Book.tags b.
Proof.
  revert tags. induction books as [|b books IH]; intros tags; cbn [foldl].
  - split; [done|]. intros x. split; [by left|].
    intros [?|(b & []%elem_of_nil & _)]. done.
  - destruct (IH (foldl set_add tags (Book.tags b))) as [IHdup IHin].
    destruct (foldl_set_add (Book.tags b) tags) as [Hdup Hin]. split.
    + intros ?. by apply IHdup, Hdup.
    + intros x. rewrite IHin, Hin. split.
      * intros [[?|?]|(b' & ? & ?)]; [by left|right..].
        -- exists b. split; [left|done].
        -- exists b'. split; [by right|done].
      * intros [?|(b' & [->|?]%elem_of_cons & ?)]; [by left; left|by left; right|].
        right. by exists b'.
Qed.

(** X16.  [allTags] lists every tag written on some book, each once, in
    code-unit order. *)
Theorem allTags_spec (books : list Book.t) :
  NoDup (allTags books)
  ∧ (∀ tag, tag ∈ allTags books ↔ ∃ b, b ∈ books ∧ tag ∈ Book.tags b)
  ∧ StronglySorted (λ a b, String.compare a b ≠ Gt) (allTags books).
Proof.
  destruct (foldl_books_set_add books []) as [Hdup Hin].
  unfold allTags. split; [|split].
  - rewrite js_sort_Permutation. apply Hdup. constructor.
  - intros tag. rewrite js_sort_Permutation, Hin, elem_of_nil. tauto.
  - destruct ordinal_compare_consistent as [Hsgn Htrans].
    apply Sorted_StronglySorted.
    { intros a b c. apply string_compare_trans. }
    eapply Sorted_impl;
      [|apply (js_sort_Sorted (λ a b : string, inject_Z (ordinal_compare a b)))].
    + intros a b Hab. apply (proj1 (Qle_inject_Z_0 _)) in Hab.
      unfold ordinal_compare in Hab. by destruct (String.compare a b).
    + intros a b Hab. apply Qle_inject_Z_0.
      change 0%Q with (inject_Z 0) in Hab. rewrite <- Zlt_Qlt in Hab.
      specialize (Hsgn a b).
      destruct (Z.sgn_spec (ordinal_compare a b)) as [[? E1]|[[? E1]|[? E1]]];
        destruct (Z.sgn_spec (ordinal_compare b a)) as [[? E2]|[[? E2]|[? E2]]];
        rewrite E1, E2 in Hsgn; lia.
Qed.

(** X17.  Deleting a shelf removes exactly that shelf from the custom
    shelves and leaves every book in place: the books are the same in
    number, order and id, none refers to the shelf any more, and a book
    that was not on the shelf is unchanged. *)
Theorem handleDeleteShelf_unlinks (shelfId : string)
    (customShelves : list Shelf.t) (books : list Book.t) :
  let shelves' := (handleDeleteShelf_local shelfId customShelves books).1 in
  let books' := (handleDeleteShelf_local shelfId customShelves books).2 in
  (∀ s, s ∈ shelves' ↔ s ∈ customShelves ∧ Shelf.id s ≠ shelfId)
  ∧ Book.id <$> books' = Book.id <$> books
  ∧ Forall (λ b, Book.shelf b ≠ Some shelfId) books'
  ∧ (∀ i b, books !! i = Some b →
       books' !! i = Some (if decide (Book.shelf b = Some shelfId)
                           then with_shelf b None else b))
  ∧ (handleDeleteShelf_local shelfId shelves' books').2 = books'.
Proof.
  intros shelves' books'. subst shelves' books'.
  cbn [handleDeleteShelf_local fst snd]. split; [|split; [|split; [|split]]].
  - intros s. rewrite list_elem_of_filter. tauto.
  - rewrite <- list_fmap_compose. apply list_fmap_ext. intros _ b _. cbn.
    by case_decide.
  - apply Forall_fmap, Forall_forall. intros b _. cbn.
    case_decide; [done|]. done.
  - intros i b Hb. by rewrite list_lookup_fmap, Hb.
  - rewrite <- list_fmap_compose. apply list_fmap_ext. intros _ b _. cbn.
    destruct (decide (Book.shelf b = Some shelfId)) as [?|Hne].
    + by rewrite decide_False.
    + by rewrite decide_False.
Qed.

Lemma with_reviews_same (book : Book.t) : with_reviews book (Book.reviews book) = book.
Proof. by destruct book. Qed.

(** X18.  Adding a review and deleting it again gives back the books, when
    the id of the new review is not the id of a review the book already
    has.  The book is found by its id; other books are never touched. *)
Theorem add_then_delete_review (bookId reviewId today : string)
    (reviewData : ReviewForm.t) (books : list Book.t) :
  (∀ b r, b ∈ books → Book.id b = bookId → r ∈ Book.reviews b →
          Review.id r ≠ reviewId) →
  handleDeleteReview_local bookId reviewId
    (handleAddReview_local bookId reviewId today reviewData books)
  = books.
Proof.
  intros Hfresh. unfold handleDeleteReview_local, handleAddReview_local.
  rewrite <- list_fmap_compose. rewrite <- (list_fmap_id books) at 2.
  apply list_fmap_ext. intros i b Hb%list_elem_of_lookup_2. cbn.
  destruct (decide (Book.id b = bookId)) as [Hid|Hid].
  - rewrite decide_False by (cbn; tauto). cbn.
    rewrite filter_app, filter_cons, filter_nil. cbn.
    rewrite decide_False by tauto. rewrite app_nil_r.
    rewrite filter_all by (intros r Hr; by eapply Hfresh).
    destruct b. reflexivity.
  - by rewrite decide_True.
Qed.

Lemma add_then_delete_review_witness :
  handleDeleteReview_local "b2" "review-17"
    (handleAddReview_local "b2" "review-17" "2024-06-01"
       {| ReviewForm.content := "Again."; ReviewForm.rating := 5 |}
       [emma; dune; ulysses])
  = [emma; dune; ulysses].
Proof.
  apply (add_then_delete_review "b2" "review-17" "2024-06-01").
  intros b r Hb Hid Hr.
  repeat (apply elem_of_cons in Hb as [->|Hb]); try (by apply elem_of_nil in Hb);
    try discriminate Hid.
  repeat (apply elem_of_cons in Hr as [->|Hr]); try (by apply elem_of_nil in Hr);
    discriminate.
Defined.

(** Inserting into a sorted list and then filtering is filtering and then
    inserting, for an element that passes the filter. *)
Lemma sort_insert_filter_pass {A} (cmp : A → A → Q) (P : A → Prop)
    `{∀ x, Decision (P x)} (x : A) (l : list A) :
  (∀ a b c, (cmp a b <= 0)%Q → (cmp b c <= 0)%Q → (cmp a c <= 0)%Q) →
  StronglySorted (λ a b, (cmp a b <= 0)%Q) l → P x →
  filter P (sort_insert cmp x l) = sort_insert cmp x (filter P l).
Proof.
  intros Htrans Hsorted Hx. induction Hsorted as [|y l Hsorted IH Hy].
  - cbn [sort_insert]. by rewrite filter_cons, decide_True.
  - cbn [sort_insert]. destruct (Qlt_le_dec 0 (cmp x y)) as [Hgt|Hle].
    + rewrite !filter_cons, IH. destruct (decide (P y)); [|done].
      cbn [sort_insert]. by destruct (Qlt_le_dec 0 (cmp x y)); [|lra].
    + rewrite (filter_cons P x), decide_True by done.
      destruct (filter P (y :: l)) as [|z rest] eqn:Hfilter; [done|].
      cbn [sort_insert].
      assert (z ∈ y :: l) as Hz.
      { eapply (proj1 (list_elem_of_filter P _ _)). rewrite Hfilter. left. }
      assert (cmp x z <= 0)%Q as Hxz.
      { apply elem_of_cons in Hz as [->|Hz]; [done|].
        eapply Htrans; [exact Hle|]. by apply (proj1 (Forall_forall _ _) Hy). }
      by destruct (Qlt_le_dec 0 (cmp x z)); [lra|].
Qed.

(** Sorting what a filter keeps is filtering what the sort yields. *)
Lemma js_sort_filter_comm {A} (cmp : A → A → Q) (P : A → Prop)
    `{∀ x, Decision (P x)} (l : list A) :
  (∀ a b, (0 < cmp a b)%Q → (cmp b a <= 0)%Q) →
  (∀ a b c, (cmp a b <= 0)%Q → (cmp b c <= 0)%Q → (cmp a c <= 0)%Q) →
  js_sort cmp (filter P l) = filter P (js_sort cmp l).
Proof.
  intros Htotal Htrans. induction l as [|x l IH]; [done|].
  rewrite filter_cons. destruct (decide (P x)) as [Hx|Hx].
  - unfold js_sort in *. cbn [foldr]. rewrite IH.
    symmetry. apply sort_insert_filter_pass; [done| |done].
    apply Sorted_StronglySorted; [intros a b c; apply Htrans|].
    by apply js_sort_Sorted.
  - rewrite IH. unfold js_sort. cbn [foldr].
    rewrite sort_insert_filter by done. by rewrite filter_cons, decide_False.
Qed.

Section view_of_less.
Context `{Host}.
Hypothesis collation : consistent_collation localeCompare.

Lemma filter_filter_comm {A} (P Q : A → Prop) `{∀ x, Decision (P x)}
    `{∀ x, Decision (Q x)} (l : list A) :
  filter P (filter Q l) = filter Q (filter P l).
Proof. rewrite !list_filter_filter. apply list_filter_iff. intros x. tauto. Qed.

Lemma filtered_filter_comm (Q : Book.t → Prop) `{∀ b, Decision (Q b)}
    (v : View.t) (books : list Book.t) :
  filtered v (filter Q books) = filter Q (filtered v books).
Proof.
  unfold filtered.
  assert (∀ l, search_filter (View.searchQuery v) (filter Q l)
               = filter Q (search_filter (View.searchQuery v) l)) as ->.
  { intros l. unfold search_filter. destruct (nonempty _); [|done].
    apply filter_filter_comm. }
  assert (∀ l, status_filter (View.statusFilter v) (filter Q l)
               = filter Q (status_filter (View.statusFilter v) l)) as ->.
  { intros l. destruct (View.statusFilter v); [done|]. apply filter_filter_comm. }
  assert (∀ l, shelf_filter (View.shelfFilter v) (filter Q l)
               = filter Q (shelf_filter (View.shelfFilter v) l)) as ->.
  { intros l. unfold shelf_filter. destruct (_ && _); [apply filter_filter_comm|].
    destruct (builtin_shelf _); [apply filter_filter_comm|done]. }
  destruct (View.tagFilter v) as [tag|]; [|done]. cbn [tag_filter].
  destruct (nonempty tag); [apply filter_filter_comm|done].
Qed.

(** X19.  With a consistent collation, deleting a book and building the
    view commute: the view of the collection without the book is the view
    of the collection with the book taken out, every other book in the same
    place. *)
Theorem filteredBooks_after_delete (v : View.t) (bookId : string)
    (books : list Book.t) :
  filteredBooks v (handleDeleteBook_local bookId books)
  = handleDeleteBook_local bookId (filteredBooks v books).
Proof.
  unfold handleDeleteBook_local, filteredBooks.
  rewrite filtered_filter_comm. apply js_sort_filter_comm.
  - intros a b. by apply compareFn_total.
  - intros a b c. by apply compareFn_trans.
Qed.
End view_of_less.

Lemma filteredBooks_after_delete_witness :
  Book.id <$> @filteredBooks (utc_host 2024) (view sortBy_title asc)
                (handleDeleteBook_local "b1" [ulysses; emma; dune; beloved])
  = ["b8"; "b2"; "b3"]%string
  ∧ @filteredBooks (utc_host 2024) (view sortBy_title asc)
      (handleDeleteBook_local "b1" [ulysses; emma; dune; beloved])
    = handleDeleteBook_local "b1"
        (@filteredBooks (utc_host 2024) (view sortBy_title asc)
           [ulysses; emma; dune; beloved]).
Proof.
  split; [reflexivity|].
  exact (@filteredBooks_after_delete (utc_host 2024) ordinal_compare_consistent
           (view sortBy_title asc) "b1" [ulysses; emma; dune; beloved]).
Defined.

Lemma foldl_totalReviews (l : list Book.t) (acc : nat) :
  foldl (λ sum b, (sum + length (Book.reviews b))%nat) acc l
  = (acc + totalReviews l)%nat.
Proof.
  unfold totalReviews. revert acc.
  induction l as [|b l IH]; intros acc; cbn [foldl]; [lia|].
  rewrite IH, (IH (0 + _)%nat). lia.
Qed.

(** X20.  Adding a review raises the number of reviews of the statistics by
    one for each book that carries the given id: by one when the id names
    one book, by nothing when it names none. *)
Theorem totalReviews_after_add `{Host} (bookId reviewId today : string)
    (reviewData : ReviewForm.t) (books : list Book.t) :
  Stats.totalReviews
    (ReadingStats (handleAddReview_local bookId reviewId today reviewData books))
  = (Stats.totalReviews (ReadingStats books)
     + length (filter (λ b, Book.id b = bookId) books))%nat.
Proof.
  cbn [ReadingStats Stats.totalReviews]. unfold handleAddReview_local.
  induction books as [|b books IH]; [done|].
  rewrite fmap_cons, filter_cons. unfold totalReviews in *. cbn [foldl].
  rewrite !foldl_totalReviews. unfold totalReviews. rewrite IH.
  destruct (decide (Book.id b = bookId)); cbn [with_reviews Book.reviews length];
    rewrite ?length_app; cbn [length]; lia.
Qed.

(** * Further properties of the backend routes and their client *)

Lemma find_book_id (id : string) (books : list Book.t) (b : Book.t) :
  find_book id books = Some b → Book.id b = id ∧ b ∈ books.
Proof.
  unfold find_book. intros Hhead.
  assert (b ∈ filter (λ b, Book.id b = id) books) as Hin.
  { destruct (filter _ books); [done|]. injection Hhead as ->. left. }
  by apply list_elem_of_filter in Hin.
Qed.

Lemma find_book_None (id : string) (books : list Book.t) :
  find_book id books = None ↔ ∀ b, b ∈ books → Book.id b ≠ id.
Proof.
  unfold find_book. split.
  - intros Hnone b Hb Hid.
    assert (b ∈ filter (λ b, Book.id b = id) books) as Hin
      by (by apply list_elem_of_filter).
    destruct (filter _ books); [by apply elem_of_nil in Hin|done].
  - intros Hall. by rewrite filter_none.
Qed.

(** Looking a book up after every row has gone through [f], when [f] keeps
    the ids. *)
Lemma find_book_fmap (f : Book.t → Book.t) (id : string) (books : list Book.t) :
  (∀ b, Book.id (f b) = Book.id b) →
  find_book id (f <$> books) = f <$> find_book id books.
Proof.
  intros Hid. unfold find_book. induction books as [|b books IH]; [done|].
  rewrite fmap_cons, !filter_cons, Hid.
  destruct (decide (Book.id b = id)); [done|exact IH].
Qed.

Lemma replace_row_id (id : string) (row : Book.t) (b : Book.t) :
  Book.id row = id →
  Book.id (if decide (Book.id b = id) then row else b) = Book.id b.
Proof. intros Hrow. case_decide; congruence. Qed.

(** The update of a row that exists: the answer, the stored rows and the
    goals afterwards. *)
Lemma put_book_found (id : string) (updates : Body.t) (db : Db.t)
    (existing : Book.t) :
  find_book id (Db.book db) = Some existing →
  ∃ row, (put_book id updates db).1 = Some row
         ∧ Book.status row = default (Book.status existing) (Body.status updates)
         ∧ Book.progress row
           = from_option Some (Book.progress existing) (Body.progress updates)
         ∧ find_book id (Db.book (put_book id updates db).2) = Some row
         ∧ Book.id <$> Db.book (put_book id updates db).2
           = Book.id <$> Db.book db
         ∧ (∀ other, other ≠ id →
              find_book other (Db.book (put_book id updates db).2)
              = find_book other (Db.book db))
         ∧ Db.readingGoal (put_book id updates db).2 = Db.readingGoal db.
Proof.
  intros Hfound. unfold put_book. rewrite Hfound. cbn [fst snd Db.book].
  destruct (find_book_id _ _ _ Hfound) as [Hid _].
  set (row := with_fields existing _ _).
  assert (Book.id row = id) as Hrow by done.
  exists row. split; [done|]. split; [done|]. split.
  { unfold row. cbn. by destruct (Body.progress updates). }
  split; [|split; [|split; [|done]]].
  + rewrite find_book_fmap by (intros b; by apply replace_row_id).
    rewrite Hfound. cbn. by rewrite decide_True.
  + rewrite <- list_fmap_compose. apply list_fmap_ext. intros _ b _. cbn.
    by apply replace_row_id.
  + intros other Hother.
    rewrite find_book_fmap by (intros b; by apply replace_row_id).
    destruct (find_book other (Db.book db)) as [b|] eqn:Hb; [|done].
    destruct (find_book_id _ _ _ Hb) as [Hbid _]. cbn.
    rewrite decide_False by congruence. done.
Qed.

(** X21.  [PUT /api/books/:id] answers 404 for an unknown id and changes
    nothing.  For a known id it answers the updated row; afterwards the row
    is what a lookup of the id finds, the rows keep their ids and order, a
    lookup of any other id finds what it found before, and the goals are
    untouched. *)
Theorem put_book_lookup (id : string) (updates : Body.t) (db : Db.t) :
  (find_book id (Db.book db) = None → put_book id updates db = (None, db))
  ∧ (∀ existing, find_book id (Db.book db) = Some existing →
       ∃ row, (put_book id updates db).1 = Some row
              ∧ Book.status row = default (Book.status existing) (Body.status updates)
              ∧ Book.progress row
                = from_option Some (Book.progress existing) (Body.progress updates)
              ∧ find_book id (Db.book (put_book id updates db).2) = Some row
              ∧ Book.id <$> Db.book (put_book id updates db).2
                = Book.id <$> Db.book db
              ∧ (∀ other, other ≠ id →
                   find_book other (Db.book (put_book id updates db).2)
                   = find_book other (Db.book db))
              ∧ Db.readingGoal (put_book id updates db).2 = Db.readingGoal db).
Proof.
  split.
  - intros Hnone. unfold put_book. by rewrite Hnone.
  - intros existing. apply put_book_found.
Qed.

(** X22.  After an edit through the backend the client holds the server's
    row: every book of the client state with the edited id is the row that
    the database now finds under that id.  An edit of the progress alone
    stores that progress, keeps the status and leaves the goal alone. *)
Theorem handleEditBook_mirrors_row `{Host} (bookId : string) (updates : Updates.t)
    (app : App.t) (db : Db.t) (existing : Book.t) :
  find_book bookId (Db.book db) = Some existing →
  let app' := (handleEditBook bookId updates app db).1 in
  let db' := (handleEditBook bookId updates app db).2 in
  (∀ b, b ∈ App.books app' → Book.id b = bookId →
        find_book bookId (Db.book db') = Some b)
  ∧ Book.id <$> App.books app' = Book.id <$> App.books app
  ∧ (∀ progress, updates = progress_updates progress →
       find_book bookId (Db.book db')
       = Some (with_fields existing (Book.status existing) (Some progress))
       ∧ App.readingGoal app' = App.readingGoal app
       ∧ Db.readingGoal db' = Db.readingGoal db).
Proof.
  intros Hfound app' db'. subst app' db'.
  destruct (put_book_found bookId (JSON_stringify updates) db existing Hfound)
    as (row & Hrow & Hstatus & Hprogress & Hafter & _ & _ & Hgoals).
  destruct (find_book_id _ _ _ Hafter) as [Hrowid _].
  unfold handleEditBook.
  destruct (put_book bookId (JSON_stringify updates) db) as [answer db1] eqn:Hrun.
  cbn [fst snd] in *. subst answer.
  assert (∀ (books : list Book.t) b,
            b ∈ (λ book, if decide (Book.id book = bookId) then row else book)
                  <$> books →
            Book.id b = bookId → b = row) as Hmirror.
  { intros books b (b0 & -> & _)%list_elem_of_fmap Hid.
    case_decide as Hb0; [done|]. by destruct Hb0. }
  assert (∀ books : list Book.t,
            Book.id <$> ((λ book, if decide (Book.id book = bookId)
                                  then row else book) <$> books)
            = Book.id <$> books) as Hids.
  { intros books. rewrite <- list_fmap_compose. apply list_fmap_ext.
    intros _ b _. cbn. by apply replace_row_id. }
  destruct (decide (is_Some (Updates.status updates))) as [Hsome|Hnone].
  - unfold sync. destruct (upsert _ _ _ _) as [goal table]. cbn [fst snd App.books Db.book].
    split; [|split; [apply Hids|]].
    + intros b Hb Hid. rewrite (Hmirror _ b Hb Hid). exact Hafter.
    + intros progress ->. by destruct Hsome.
  - cbn [fst snd App.books App.readingGoal].
    split; [|split; [apply Hids|]].
    + intros b Hb Hid. rewrite (Hmirror _ b Hb Hid). exact Hafter.
    + intros progress ->. split; [|done]. rewrite Hafter. f_equal.
      unfold put_book in Hrun. rewrite Hfound in Hrun. by injection Hrun as <- _.
Qed.

Lemma handleEditBook_mirrors_row_witness :
  find_book "b6"
    (Db.book (@handleUpdateProgress (utc_host 2024) "b6" 150 app0 db0).2)
  = Some (with_fields middlemarch reading (Some 150))
  ∧ App.readingGoal (@handleUpdateProgress (utc_host 2024) "b6" 150 app0 db0).1
    = goal_2024.
Proof.
  pose proof (@handleEditBook_mirrors_row (utc_host 2024) "b6"
                (progress_updates 150) app0 db0 middlemarch eq_refl)
    as (_ & _ & Hprogress).
  destruct (Hprogress 150 eq_refl) as (Hrow & Hgoal & _).
  split; [exact Hrow|exact Hgoal].
Defined.

Lemma set_current_same (goal : ReadingGoal.t) :
  set_current (ReadingGoal.current goal) goal = goal.
Proof. by destruct goal. Qed.

(** X23.  Synchronising twice is synchronising once: the second call
    answers the same goal and leaves the database as the first call left
    it.  A sync touches neither the books nor the goal of any other year. *)
Theorem sync_idempotent `{Host} (db : Db.t) :
  sync (sync db).2 = sync db
  ∧ Db.book (sync db).2 = Db.book db
  ∧ ∀ year, year ≠ currentYear →
      Db.readingGoal (sync db).2 !! year = Db.readingGoal db !! year.
Proof.
  unfold sync, upsert. cbn [fst snd Db.book Db.readingGoal].
  split; [|split; [done|]].
  - rewrite lookup_insert_eq, insert_insert_eq.
    destruct (Db.readingGoal db !! currentYear) as [stored|]; cbn; done.
  - intros year Hyear. by rewrite lookup_insert_ne.
Qed.

(** X24.  After a status change or a deletion through the backend, of a
    book the database has, the goal shown by the client is the goal stored
    for the current year, and its count is the number of read books in the
    database as the edit left it. *)
Theorem goal_follows_edits `{Host} (bookId : string) (status : ReadingStatus)
    (app : App.t) (db : Db.t) (existing : Book.t) :
  find_book bookId (Db.book db) = Some existing →
  let changed := handleChangeStatus bookId status app db in
  let deleted := handleDeleteBook bookId app db in
  Db.readingGoal changed.2 !! currentYear = Some (App.readingGoal changed.1)
  ∧ ReadingGoal.current (App.readingGoal changed.1)
    = Z.of_nat (length (filter (λ b, Book.status b = read) (Db.book changed.2)))
  ∧ Db.readingGoal deleted.2 !! currentYear = Some (App.readingGoal deleted.1)
  ∧ ReadingGoal.current (App.readingGoal deleted.1)
    = Z.of_nat (length (filter (λ b, Book.status b = read) (Db.book deleted.2)))
  ∧ find_book bookId (Db.book deleted.2) = None
  ∧ find_book bookId (App.books deleted.1) = None.
Proof.
  intros Hfound changed deleted. subst changed deleted.
  assert (∀ db1, Db.readingGoal (sync db1).2 !! currentYear = Some (sync db1).1
                 ∧ ReadingGoal.current (sync db1).1
                   = Z.of_nat (length (filter (λ b, Book.status b = read)
                                              (Db.book (sync db1).2)))) as Hsync.
  { intros db1. unfold sync, upsert. cbn [fst snd Db.book Db.readingGoal].
    rewrite lookup_insert_eq. split; [done|].
    by destruct (Db.readingGoal db1 !! currentYear). }
  assert (is_Some (Updates.status (status_updates (App.books app) bookId status)))
    as Hstatus.
  { unfold status_updates. destruct (_ && _), (bool_decide _); by eexists. }
  split; [|split]; [| |split; [|split; [|split]]].
  - unfold handleChangeStatus, handleEditBook, put_book. rewrite Hfound.
    rewrite decide_True by exact Hstatus.
    match goal with |- context [sync ?d] => destruct (Hsync d) as [Hgoal _];
      destruct (sync d) as [goal db2] end. done.
  - unfold handleChangeStatus, handleEditBook, put_book. rewrite Hfound.
    rewrite decide_True by exact Hstatus.
    match goal with |- context [sync ?d] => destruct (Hsync d) as [_ Hcount];
      destruct (sync d) as [goal db2] end. done.
  - unfold handleDeleteBook, delete_book. rewrite Hfound.
    match goal with |- context [sync ?d] => destruct (Hsync d) as [Hgoal _];
      destruct (sync d) as [goal db2] end. done.
  - unfold handleDeleteBook, delete_book. rewrite Hfound.
    match goal with |- context [sync ?d] => destruct (Hsync d) as [_ Hcount];
      destruct (sync d) as [goal db2] end. done.
  - unfold handleDeleteBook, delete_book. rewrite Hfound.
    unfold sync, upsert. cbn [fst snd Db.book Db.readingGoal].
    apply find_book_None. by intros b [? _]%list_elem_of_filter.
  - unfold handleDeleteBook, delete_book. rewrite Hfound.
    unfold sync, upsert. cbn [fst snd App.books].
    apply find_book_None. by intros b [? _]%list_elem_of_filter.
Qed.

Lemma goal_follows_edits_witness :
  App.readingGoal (@handleChangeStatus (utc_host 2024) "b6" read app0 db0).1
  = {| ReadingGoal.year := 2024; ReadingGoal.target := 24;
       ReadingGoal.current := 1 |}
  ∧ ReadingGoal.current
      (App.readingGoal (@handleChangeStatus (utc_host 2024) "b6" read app0 db0).1)
    = Z.of_nat (length (filter (λ b, Book.status b = read)
                  (Db.book (@handleChangeStatus (utc_host 2024) "b6" read
                              app0 db0).2))).
Proof.
  split; [reflexivity|].
  apply (@goal_follows_edits (utc_host 2024) "b6" read app0 db0 middlemarch eq_refl).
Defined.

(** X25.  [GET /api/reading-goal] answers the goal it finds stored for the
    current year without recounting and without writing; only when none is
    stored does it create one, with target 24 and the count of this year's
    read books.  Either way the answer is what is stored afterwards, and
    calling it again answers the same and changes nothing. *)
Theorem get_goal_reads_or_creates `{Host} (db : Db.t) :
  (∀ stored, Db.readingGoal db !! currentYear = Some stored →
     get_goal db = (stored, db))
  ∧ (Db.readingGoal db !! currentYear = None →
     (get_goal db).1
     = {| ReadingGoal.year := currentYear; ReadingGoal.target := 24;
          ReadingGoal.current := booksReadThisYear db |})
  ∧ Db.readingGoal (get_goal db).2 !! currentYear = Some (get_goal db).1
  ∧ get_goal (get_goal db).2 = get_goal db
  ∧ Db.book (get_goal db).2 = Db.book db.
Proof.
  unfold get_goal.
  destruct (Db.readingGoal db !! currentYear) as [stored|] eqn:Hstored;
    cbn [fst snd Db.readingGoal Db.book].
  - repeat split; try done.
    + by intros ? [= <-].
    + by rewrite Hstored.
  - rewrite lookup_insert_eq. by repeat split.
Qed.

(** X26.  [PUT /api/reading-goal] refuses a missing or negative target and
    changes nothing.  Any other target, 0 included, is stored for the
    current year together with the count of this year's read books; a
    following [GET] answers that goal, and a following sync keeps the
    target. *)
Theorem put_goal_stores_target `{Host} (target : option Z) (db : Db.t) :
  ((target = None ∨ ∃ t, target = Some t ∧ t < 0) → put_goal target db = (None, db))
  ∧ (∀ t, target = Some t → 0 ≤ t →
       ∃ goal, (put_goal target db).1 = Some goal
               ∧ ReadingGoal.target goal = t
               ∧ ReadingGoal.current goal = booksReadThisYear db
               ∧ Db.book (put_goal target db).2 = Db.book db
               ∧ get_goal (put_goal target db).2 = (goal, (put_goal target db).2)
               ∧ ReadingGoal.target (sync (put_goal target db).2).1 = t).
Proof.
  split.
  - intros [->|(t & -> & Ht)]; [done|]. unfold put_goal. by rewrite decide_True.
  - intros t -> Ht. unfold put_goal, upsert. rewrite decide_False by lia.
    cbn [fst snd Db.book Db.readingGoal]. eexists. split; [done|].
    unfold get_goal, sync, upsert. cbn [fst snd Db.book Db.readingGoal].
    rewrite !lookup_insert_eq.
    by destruct (Db.readingGoal db !! currentYear).
Qed.

Lemma put_goal_stores_target_witness :
  (@put_goal (utc_host 2024) (Some (-3)) db0) = (None, db0)
  ∧ (@put_goal (utc_host 2024) (Some 30)
       {| Db.book := [hamlet; emma]; Db.readingGoal := ∅ |}).1
    = Some {| ReadingGoal.year := 2024; ReadingGoal.target := 30;
              ReadingGoal.current := 1 |}
  ∧ ReadingGoal.target
      (@sync (utc_host 2024)
         (@put_goal (utc_host 2024) (Some 30)
            {| Db.book := [hamlet; emma]; Db.readingGoal := ∅ |}).2).1
    = 30.
Proof.
  split; [|split; [reflexivity|]].
  - apply (@put_goal_stores_target (utc_host 2024) (Some (-3)) db0).
    right. exists (-3). split; [reflexivity|lia].
  - destruct (proj2 (@put_goal_stores_target (utc_host 2024) (Some 30)
                       {| Db.book := [hamlet; emma]; Db.readingGoal := ∅ |})
                    30 eq_refl ltac:(lia))
      as (goal & _ & _ & _ & _ & _ & Hsync).
    exact Hsync.
Defined.

Lemma get_goal_reads_or_creates_witness :
  @get_goal (utc_host 2024)
    {| Db.book := [emma; dune]; Db.readingGoal := {[2024 := goal_2024]} |}
  = (goal_2024,
     {| Db.book := [emma; dune]; Db.readingGoal := {[2024 := goal_2024]} |})
  ∧ (@get_goal (utc_host 2024) {| Db.book := [hamlet; emma]; Db.readingGoal := ∅ |}).1
    = {| ReadingGoal.year := 2024; ReadingGoal.target := 24;
         ReadingGoal.current := 1 |}.
Proof.
  split.
  - apply (@get_goal_reads_or_creates (utc_host 2024)
             {| Db.book := [emma; dune]; Db.readingGoal := {[2024 := goal_2024]} |}).
    reflexivity.
  - apply (@get_goal_reads_or_creates (utc_host 2024)
             {| Db.book := [hamlet; emma]; Db.readingGoal := ∅ |}).
    reflexivity.
Defined.

(** X27.  The books sent for recommendations are the read books that have
    a review, each with its latest-listed review text, when there are at
    least three of them; otherwise every book is sent.  Nothing is sent
    only for an empty collection. *)
Theorem booksToSend_selection (books : list Book.t) :
  let rated := filter (λ b, Book.status b = read ∧ has_reviews b) books in
  ((3 ≤ length rated)%nat →
     booksToSend books = book_input <$> rated
     ∧ Forall (λ input, is_Some (BookInput.review input)) (booksToSend books))
  ∧ ((length rated < 3)%nat → booksToSend books = book_input <$> books)
  ∧ (booksToSend books = [] ↔ books = []).
Proof.
  intros rated. unfold booksToSend. fold rated. rewrite length_fmap.
  split; [|split].
  - intros H3. rewrite decide_True by done. split; [done|].
    apply Forall_fmap, Forall_forall. intros b [[_ Hrev] _]%list_elem_of_filter.
    cbn. unfold has_reviews in Hrev.
    destruct (Book.reviews b) as [|r rs] using rev_ind; [simpl in Hrev; lia|].
    rewrite last_snoc. by eexists.
  - intros Hlt. by rewrite decide_False by lia.
  - case_decide as H3.
    + split.
      * intros Hnil. apply fmap_nil_inv in Hnil.
        rewrite Hnil in H3. simpl in H3. lia.
      * intros ->. done.
    + split; [apply fmap_nil_inv|by intros ->].
Qed.

Lemma booksToSend_selection_witness :
  BookInput.title <$> booksToSend [emma; ulysses; dune; persuasion; beloved]
  = ["Emma"; "Dune"; "Beloved"]%string
  ∧ BookInput.title <$> booksToSend [emma; ulysses; persuasion]
    = ["Emma"; "Ulysses"; "Persuasion"]%string
  ∧ Forall (λ input, is_Some (BookInput.review input))
      (booksToSend [emma; ulysses; dune; persuasion; beloved]).
Proof.
  split; [reflexivity|]. split; [reflexivity|].
  apply (booksToSend_selection [emma; ulysses; dune; persuasion; beloved]).
  vm_compute. lia.
Defined.

(** X28.  In the browser-storage build a status change rewrites the book
    found under the id and nothing else: it gets the new status, and its
    progress becomes the page total on a change to read (when a non-zero
    total is known), is cleared on a change to want-to-read, and is kept
    otherwise.  The books keep their ids and order, and a lookup of any
    other id finds what it found before. *)
Theorem handleChangeStatus_local_lookup (bookId : string) (status : ReadingStatus)
    (books : list Book.t) (book : Book.t) :
  find_book bookId books = Some book →
  find_book bookId (handleChangeStatus_local bookId status books)
  = Some (with_fields book status
            match status with
            | read => if truthy (Book.totalPages book) then Book.totalPages book
                      else Book.progress book
            | reading => Book.progress book
            | want_to_read => None
            end)
  ∧ Book.id <$> handleChangeStatus_local bookId status books = Book.id <$> books
  ∧ ∀ other, other ≠ bookId →
      find_book other (handleChangeStatus_local bookId status books)
      = find_book other books.
Proof.
  intros Hfound. unfold handleChangeStatus_local, handleEditBook_local.
  set (updates := status_updates books bookId status).
  assert (∀ b, Book.id (if decide (Book.id b = bookId) then merge b updates else b)
               = Book.id b) as Hid by (intros b; by case_decide).
  destruct (find_book_id _ _ _ Hfound) as [Hbook _].
  split; [|split].
  - rewrite find_book_fmap by exact Hid. rewrite Hfound. cbn.
    rewrite decide_True by done. f_equal.
    unfold updates, status_updates, merge. rewrite Hfound. cbn.
    destruct status; cbn; try done.
    destruct (Book.totalPages book) as [pages|]; cbn; [|done].
    by destruct (pages =? 0).
  - rewrite <- list_fmap_compose. apply list_fmap_ext. intros _ b _. apply Hid.
  - intros other Hother. rewrite find_book_fmap by exact Hid.
    destruct (find_book other books) as [b|] eqn:Hb; [|done].
    destruct (find_book_id _ _ _ Hb) as [Hbid _]. cbn.
    by rewrite decide_False by congruence.
Qed.

Lemma handleChangeStatus_local_lookup_witness :
  find_book "b6" (handleChangeStatus_local "b6" read [ulysses; middlemarch])
  = Some (with_fields middlemarch read (Some 300))
  ∧ find_book "b3" (handleChangeStatus_local "b6" read [ulysses; middlemarch])
    = Some ulysses.
Proof.
  destruct (handleChangeStatus_local_lookup "b6" read [ulysses; middlemarch]
              middlemarch eq_refl) as (Hbook & _ & Hother).
  split; [exact Hbook|]. by rewrite Hother.
Defined.

(** X29.  The count of the year-restricted routes never exceeds the count
    of the mounted sync, and the two are the same when every read book was
    added in the current year. *)
Theorem year_restricted_count_le `{Host} (db : Db.t) :
  ReadingGoal.current (goals_sync db).1 ≤ ReadingGoal.current (sync db).1
  ∧ booksReadThisYear db ≤ ReadingGoal.current (sync db).1
  ∧ (Forall (λ b, Book.status b = read →
                  getFullYear (Book.dateAdded b) = currentYear) (Db.book db) →
     ReadingGoal.current (goals_sync db).1 = ReadingGoal.current (sync db).1).
Proof.
  assert (ReadingGoal.current (goals_sync db).1 = booksReadThisYear db) as ->.
  { unfold goals_sync, upsert, booksReadThisYear. cbn [fst].
    by destruct (Db.readingGoal db !! currentYear). }
  assert (ReadingGoal.current (sync db).1
          = Z.of_nat (length (filter (λ b, Book.status b = read) (Db.book db))))
    as ->.
  { unfold sync, upsert. cbn [fst]. by destruct (Db.readingGoal db !! currentYear). }
  unfold booksReadThisYear.
  assert (filter (λ b, Book.status b = read
                       ∧ getFullYear (Book.dateAdded b) = currentYear) (Db.book db)
          = filter (λ b, getFullYear (Book.dateAdded b) = currentYear)
                   (filter (λ b, Book.status b = read) (Db.book db))) as ->.
  { rewrite list_filter_filter. apply list_filter_iff. intros b. tauto. }
  pose proof (length_filter (λ b, getFullYear (Book.dateAdded b) = currentYear)
                (filter (λ b, Book.status b = read) (Db.book db))) as Hle.
  split; [lia|]. split; [lia|].
  intros Hyear. rewrite filter_all; [done|].
  intros b [Hread Hin]%list_elem_of_filter.
  by apply (proj1 (Forall_forall _ _) Hyear).
Qed.

Lemma year_restricted_count_le_witness :
  ReadingGoal.current
    (@goals_sync (utc_host 2024) {| Db.book := [emma; dune]; Db.readingGoal := ∅ |}).1
  = ReadingGoal.current
      (@sync (utc_host 2024) {| Db.book := [emma; dune]; Db.readingGoal := ∅ |}).1.
Proof.
  apply (@year_restricted_count_le (utc_host 2024)
           {| Db.book := [emma; dune]; Db.readingGoal := ∅ |}).
  repeat (apply Forall_cons; split; [intros _; reflexivity|]). apply Forall_nil_2.
Defined.

Lemma prefix_refl (s : string) : String.prefix s s = true.
Proof.
  induction s as [|c s IH]; [done|]. cbn [String.prefix].
  by destruct (ascii_dec c c).
Qed.

Lemma includes_refl (s : string) : includes s s = true.
Proof. destruct s; cbn [includes]; by rewrite prefix_refl. Qed.

(** X30.  Search ignores case and finds a book by its own words: when the
    query lower-cases to what the title, the author or one of the tags of a
    book lower-cases to, the view for that query, with the other filters
    off, contains the book. *)
Theorem found_by_own_words `{Host} (b : Book.t) (books : list Book.t)
    (query : string) (sortBy : SortOption) (sortDirection : SortDirection) :
  b ∈ books →
  toLowerCase query = toLowerCase (Book.title b)
  ∨ toLowerCase query = toLowerCase (Book.author b)
  ∨ (∃ tag, tag ∈ Book.tags b ∧ toLowerCase query = toLowerCase tag) →
  b ∈ filteredBooks
        {| View.searchQuery := query; View.statusFilter := status_all;
           View.shelfFilter := "all"; View.tagFilter := None;
           View.sortBy := sortBy; View.sortDirection := sortDirection |}
        books.
Proof.
  intros Hb Hquery. unfold filteredBooks. rewrite js_sort_Permutation.
  unfold filtered. cbn [View.searchQuery View.statusFilter View.shelfFilter
                        View.tagFilter tag_filter status_filter].
  change (shelf_filter "all" ?l) with l.
  apply elem_of_search_filter. split; [done|]. intros _.
  unfold matches_query.
  destruct Hquery as [->|[->|(tag & Htag & ->)]].
  - by rewrite includes_refl.
  - rewrite includes_refl. by rewrite orb_true_r.
  - apply Is_true_true, orb_true_iff. right. apply existsb_exists.
    exists tag. split; [by apply list_elem_of_In|apply includes_refl].
Qed.

Lemma found_by_own_words_witness :
  Book.id <$> @filteredBooks (utc_host 2024)
                {| View.searchQuery := "DUNE"; View.statusFilter := status_all;
                   View.shelfFilter := "all"; View.tagFilter := None;
                   View.sortBy := sortBy_title; View.sortDirection := asc |}
                [emma; dune; ulysses]
  = ["b2"]%string
  ∧ dune ∈ @filteredBooks (utc_host 2024)
             {| View.searchQuery := "DUNE"; View.statusFilter := status_all;
                View.shelfFilter := "all"; View.tagFilter := None;
                View.sortBy := sortBy_title; View.sortDirection := asc |}
             [emma; dune; ulysses].
Proof.
  split; [reflexivity|].
  apply (@found_by_own_words (utc_host 2024) dune [emma; dune; ulysses] "DUNE"
           sortBy_title asc).
  - right. left.
  - left. reflexivity.
Defined.

Lemma topTags_most_frequent_witness :
  topTags [emma; dune; ulysses]
  = [("classic"%string, number_of 3); ("romance"%string, number_of 1);
     ("scifi"%string, number_of 1)]
  ∧ (length (topTags [emma; dune; ulysses]) ≤ 5)%nat.
Proof.
  split; [reflexivity|]. apply (topTags_most_frequent [emma; dune; ulysses]).
  unfold plain_tags.
  repeat (apply Forall_cons; split); try apply Forall_nil;
    apply (bool_decide_unpack _); vm_compute; exact I.
Defined.

Lemma handleDeleteShelf_unlinks_witness :
  handleDeleteShelf_local "shelf-1" [favourites; travel] [emma; shelved]
  = ([travel], [emma; dune])
  ∧ Forall (λ b, Book.shelf b ≠ Some "shelf-1"%string)
      (handleDeleteShelf_local "shelf-1" [favourites; travel] [emma; shelved]).2.
Proof.
  split; [reflexivity|].
  apply (handleDeleteShelf_unlinks "shelf-1" [favourites; travel] [emma; shelved]).
Defined.

Lemma put_book_lookup_witness :
  put_book "b0" {| Body.status := Some read; Body.progress := None |} db0 = (None, db0)
  ∧ find_book "b3"
      (Db.book (put_book "b6" {| Body.status := Some read; Body.progress := Some 300 |}
                  db0).2)
    = Some ulysses.
Proof.
  split.
  - apply (put_book_lookup "b0" {| Body.status := Some read; Body.progress := None |} db0).
    reflexivity.
  - destruct (proj2 (put_book_lookup "b6"
                       {| Body.status := Some read; Body.progress := Some 300 |} db0)
                    middlemarch eq_refl)
      as (row & _ & _ & _ & _ & _ & Hother & _).
    rewrite (Hother "b3"%string); [reflexivity|discriminate].
Defined.

Lemma sync_idempotent_witness :
  @sync (utc_host 2024) (@sync (utc_host 2024) db0).2 = @sync (utc_host 2024) db0
  ∧ Db.readingGoal
      (@sync (utc_host 2024)
         {| Db.book := [emma]; Db.readingGoal := {[2023 := goal_2024]} |}).2 !! 2023
    = Some goal_2024.
Proof.
  split.
  - apply (@sync_idempotent (utc_host 2024) db0).
  - destruct (@sync_idempotent (utc_host 2024)
                {| Db.book := [emma]; Db.readingGoal := {[2023 := goal_2024]} |})
      as (_ & _ & Hother).
    rewrite (Hother 2023); [reflexivity|discriminate].
Defined.
